(** * realdds device server: control, discovery and lifecycle

    A shallow embedding of [third-party/realdds/src/dds-device-server.cpp]
    and the properties of its initialisation, discovery publication,
    option handlers, reply generation and broadcast lifecycle.

    Conventions.
    - A [shared_ptr< dds_option >] is an address into a store of option
      objects; the device list and the streams' lists hold addresses, so
      an object reachable from two places is one object.
    - C++ exceptions are outcomes: a call either returns, throws an
      exception object, or has no defined behaviour (a null handle is
      dereferenced).  State written before a throw stays written.
    - Every exception is a [std::exception]: it is identified by the text
      its [what()] returns.  This is the only kind the file throws.
    - What the file uses but does not define is a parameter of the
      development: the numeric type of the option values (class [Float]),
      the JSON library's error texts and printer, the names of the
      topics, the serialiser of an option, the settings and the device
      behind the callbacks (class [Platform]); the calls into the
      transport succeed or throw as an oracle says.
    - Logging is not modelled. *)

From Stdlib Require Import ZArith Ascii String.
From stdpp Require Import base option list strings gmap.

Set Default Proof Using "Type".
Set Warnings "-register-all".

(** The keys and identifiers of the control protocol. *)
Definition id_key : string := "id".
Definition id_set_option : string := "set-option".
Definition id_query_option : string := "query-option".
Definition value_key : string := "value".
Definition option_values_key : string := "option-values".
Definition sample_key : string := "sample".
Definition status_key : string := "status".
Definition status_ok : string := "ok".
Definition option_name_key : string := "option-name".
Definition stream_name_key : string := "stream-name".
Definition explanation_key : string := "explanation".
Definition control_key : string := "control".

(** [ros_friendly_topic_name]: the loop counts the slashes and rewrites a
    slash once the count exceeds one, so the first slash is kept. *)
Fixpoint replace_slashes (n : Z) (name : string) : string :=
  match name with
  | EmptyString => EmptyString
  | String ch rest =>
      if Ascii.eqb ch "/"%char then
        if (1 <? n + 1)%Z
        then String "_"%char (replace_slashes (n + 1) rest)
        else String ch (replace_slashes (n + 1) rest)
      else String ch (replace_slashes n rest)
  end.

Definition ros_friendly_topic_name (name : string) : string :=
  "rt/" +:+ replace_slashes 0 name.

(** What [ros_friendly_topic_name] does to a name, said without the
    counter: [underscores] replaces every slash; [keep_first_slash] leaves
    the name alone up to its first slash and replaces the slashes after
    it. *)
Fixpoint underscores (name : string) : string :=
  match name with
  | EmptyString => EmptyString
  | String ch rest =>
      String (if Ascii.eqb ch "/"%char then "_"%char else ch)
             (underscores rest)
  end.

Fixpoint keep_first_slash (name : string) : string :=
  match name with
  | EmptyString => EmptyString
  | String ch rest =>
      if Ascii.eqb ch "/"%char
      then String ch (underscores rest)
      else String ch (keep_first_slash rest)
  end.

Fixpoint has_slash (name : string) : bool :=
  match name with
  | EmptyString => false
  | String ch rest => Ascii.eqb ch "/"%char || has_slash rest
  end.

(** The topic of the stream [name] of a device with topic root [root]:
    of the slashes of root, separator and name, only the first is
    kept. *)
Definition stream_topic (root name : string) : string :=
  if has_slash root
  then "rt/" +:+ keep_first_slash root +:+ "_" +:+ underscores name
  else "rt/" +:+ root +:+ "/" +:+ underscores name.

(** ** The parameters *)

(** [float] values are only moved around by this file, never computed
    with: the type is abstract.  [float_of_int] is the conversion
    [get< float >] applies to a JSON integer. *)
Class Float : Type := {
  float : Type;
  float_of_int : Z -> float;
}.

Section Values.
Context {FT : Float}.

(** ** JSON values *)

(** Objects are [std::map]s: the entries are kept sorted by key.
    [JMissing] is the value [nested] returns for an absent key. *)
Inductive json : Type :=
| JNull
| JMissing
| JBool (b : bool)
| JInt (z : Z)
| JFloat (f : float)
| JStr (s : string)
| JArr (xs : list json)
| JObj (kvs : list (string * json)).

Fixpoint obj_find (k : string) (kvs : list (string * json)) : option json :=
  match kvs with
  | [] => None
  | (k', v) :: rest => if String.eqb k k' then Some v else obj_find k rest
  end.

Fixpoint obj_set (k : string) (v : json) (kvs : list (string * json))
  : list (string * json) :=
  match kvs with
  | [] => [(k, v)]
  | (k', v') :: rest =>
      match String.compare k k' with
      | Eq => (k, v) :: rest
      | Lt => (k, v) :: kvs
      | Gt => (k', v') :: obj_set k v rest
      end
  end.

(** [json{ {k1, v1}, ... }] with distinct keys. *)
Definition json_object (kvs : list (string * json)) : json :=
  JObj (foldl (fun acc kv => obj_set kv.1 kv.2 acc) [] kvs).

(** Reading a field of a value: [None] unless the value is an object
    that has the key. *)
Definition field (k : string) (j : json) : option json :=
  match j with
  | JObj kvs => obj_find k kvs
  | _ => None
  end.

(** ** Exceptions *)

Inductive json_failure : Type :=
| out_of_range (key : string)
| type_error (operation : string) (j : json).

(** What the code throws and catches as [std::exception const &]: the
    runtime errors of [DDS_THROW] and of the transport, and the
    exceptions of the JSON library.  The callbacks are taken to throw
    nothing that does not derive from [std::exception]. *)
Inductive exception : Type :=
| std_exception (what : string)
| json_exception (f : json_failure).

Inductive outcome (A : Type) : Type :=
| Ok (a : A)
| Throw (e : exception)
| Undefined.
#[global] Arguments Ok {A} a.
#[global] Arguments Throw {A} e.
#[global] Arguments Undefined {A}.

(** ** The monad: state passing with exceptions *)

Definition M (S A : Type) : Type := S -> outcome A * S.

Definition ret {S A} (a : A) : M S A := fun s => (Ok a, s).

Definition bind {S A B} (m : M S A) (k : A -> M S B) : M S B :=
  fun s =>
    match m s with
    | (Ok a, s') => k a s'
    | (Throw e, s') => (Throw e, s')
    | (Undefined, s') => (Undefined, s')
    end.

Definition throw {S A} (e : exception) : M S A := fun s => (Throw e, s).
Definition get {S} : M S S := fun s => (Ok s, s).
Definition gets {S A} (f : S -> A) : M S A := fun s => (Ok (f s), s).
Definition modify {S} (f : S -> S) : M S unit := fun s => (Ok tt, f s).
Definition lift {S A} (o : outcome A) : M S A := fun s => (o, s).

(** [try { m } catch( std::exception const & e ) { h e }] *)
Definition try_catch {S A} (m : M S A) (h : exception -> M S A) : M S A :=
  fun s =>
    match m s with
    | (Throw e, s') => h e s'
    | r => r
    end.

(** Running a computation on a component of the state. *)
Definition zoom {S T A} (proj : S -> T) (upd : T -> S -> S) (m : M T A)
  : M S A :=
  fun s => let (r, t) := m (proj s) in (r, upd t s).

(** [DDS_THROW( runtime_error, text )].
    Modelled from the spec: the macro is defined in dds-utilities.h,
    outside this file; it raises an exception whose failure text is the
    streamed text. *)
Definition DDS_THROW {S A} (text : string) : M S A :=
  throw (std_exception text).

Fixpoint for_each {S A} (body : A -> M S unit) (l : list A) : M S unit :=
  match l with
  | [] => ret tt
  | x :: rest => bind (body x) (fun _ => for_each body rest)
  end.

(** ** JSON operations that can fail *)

(** [j.at( key )] *)
Definition json_at (k : string) (j : json) : outcome json :=
  match j with
  | JObj kvs =>
      match obj_find k kvs with
      | Some v => Ok v
      | None => Throw (json_exception (out_of_range k))
      end
  | _ => Throw (json_exception (type_error "at" j))
  end.

(** [j[ key ] = v]: a null value becomes an object first. *)
Definition json_set (k : string) (v : json) (j : json) : outcome json :=
  match j with
  | JNull => Ok (JObj [(k, v)])
  | JObj kvs => Ok (JObj (obj_set k v kvs))
  | _ => Throw (json_exception (type_error "operator[]" j))
  end.

(** [j.push_back( v )]: a null value becomes an array first. *)
Definition json_push_back (v : json) (j : json) : outcome json :=
  match j with
  | JNull => Ok (JArr [v])
  | JArr xs => Ok (JArr (xs ++ [v]))
  | _ => Throw (json_exception (type_error "push_back" j))
  end.

(** [j.get< float >()]: defined on the arithmetic kinds. *)
Definition json_get_float (j : json) : outcome float :=
  match j with
  | JFloat f => Ok f
  | JInt z => Ok (float_of_int z)
  | JBool b => Ok (float_of_int (if b then 1 else 0))
  | _ => Throw (json_exception (type_error "get" j))
  end.

(** [j.string_ref()].
    Modelled from the spec: rsutils/json.h is outside this file; a field
    that must be a string and is not one is a hard error. *)
Definition string_ref (j : json) : outcome string :=
  match j with
  | JStr s => Ok s
  | _ => Throw (json_exception (type_error "string_ref" j))
  end.

(** [j.nested( key )].
    Modelled from the spec: rsutils/json.h is outside this file; the
    field when [j] is an object that has it, a missing value otherwise. *)
Definition nested (k : string) (j : json) : json :=
  match field k j with
  | Some v => v
  | None => JMissing
  end.

(** [j.get_ex( s )] at a string.
    Modelled from the spec: rsutils/json.h is outside this file; an
    optional field leaves the default when it is missing and is a hard
    error when it has the wrong type. *)
Definition get_ex (default : string) (j : json) : outcome string :=
  match j with
  | JMissing => Ok default
  | JStr s => Ok s
  | _ => Throw (json_exception (type_error "get_to" j))
  end.

Definition is_array (j : json) : bool :=
  match j with JArr _ => true | _ => false end.

(** ** Descriptor objects *)

(** The address of an option object. *)
Definition handle : Type := nat.

(** [dds_option].
    Modelled from the spec: the class is declared in dds-option.h,
    outside this file; an option is a data holder with a name, a current
    numeric value, and accessors for them. *)
Record dds_option : Type := {
  get_name : string;
  get_value : float;
  properties : json;
}.

Definition set_value (v : float) (o : dds_option) : dds_option :=
  {| get_name := get_name o; get_value := v; properties := properties o |}.

#[global] Instance dds_option_inhabited : Inhabited dds_option :=
  populate {| get_name := ""; get_value := float_of_int 0;
              properties := JNull |}.

(** Profiles, intrinsics and extrinsics are used through [to_json]
    only. *)
Record dds_stream_profile : Type := { profile_to_json : json }.
Record video_intrinsics : Type := { video_intrinsics_to_json : json }.
Record motion_intrinsics : Type := { motion_intrinsics_to_json : json }.
Record extrinsics : Type := { extrinsics_to_json : json }.

(** What the two dynamic casts of [on_discovery_stream_header] find. *)
Inductive stream_kind : Type :=
| video_stream (get_intrinsics : list video_intrinsics)
| motion_stream (get_accel_intrinsics get_gyro_intrinsics : motion_intrinsics)
| other_stream.

Record dds_stream_server : Type := {
  name : string;
  type_string : string;
  sensor_name : string;
  profiles : list dds_stream_profile;
  default_profile_index : Z;
  metadata_enabled : bool;
  options : list handle;
  kind : stream_kind;
  recommended_filters : list string;
}.

(** [extrinsics_map], in the order the map is iterated. *)
Definition extrinsics_map : Type := list ((string * string) * extrinsics).

(** A [flexible_msg] is the JSON it carries. *)
Definition flexible_msg : Type := json.

Record device_info : Type := {
  topic_root : string;
  info : json;
}.

(** ** The transport *)

(** The calls into the transport and the other collaborators, each of
    which may throw. *)
Inductive site : Type :=
| at_make_notification_server (topic : string)
| at_add_discovery_notification (msg : flexible_msg)
| at_notification_server_run
| at_send_notification (msg : flexible_msg)
| at_stream_open (stream topic : string)
| at_create_topic (topic : string)
| at_make_topic_writer
| at_topic_writer_run
| at_write_to (msg : flexible_msg)
| at_make_topic_reader
| at_topic_reader_run
| at_override_from_json (category : string)
| at_make_device_broadcaster
| at_broadcast_disconnect (ack_timeout : Z).

(** Which calls fail, and with what. *)
Definition faults : Type := site -> option exception.

Definition no_faults : faults := fun _ => None.

Definition extern {S} (F : faults) (s : site) : M S unit :=
  fun st =>
    match F s with
    | Some e => (Throw e, st)
    | None => (Ok tt, st)
    end.

Inductive reliability : Type :=
| BEST_EFFORT_RELIABILITY_QOS
| RELIABLE_RELIABILITY_QOS.

(** [history_depth] is [None] while the constructor's default stands. *)
Record qos : Type := {
  qos_reliability : reliability;
  history_depth : option Z;
}.

(** [dds_notification_server].
    Modelled from the spec: the class is defined outside this file; it
    caches the discovery messages in the order they are added, for
    replay, and sends one-shot notifications. *)
Record dds_notification_server : Type := {
  notification_topic : string;
  discovery_notifications : list flexible_msg;
  notification_server_running : bool;
  notifications_sent : list flexible_msg;
}.

Definition add_discovery_notification (F : faults) (msg : flexible_msg)
  : M dds_notification_server unit :=
  bind (extern F (at_add_discovery_notification msg)) (fun _ =>
  modify (fun ns =>
    {| notification_topic := notification_topic ns;
       discovery_notifications := discovery_notifications ns ++ [msg];
       notification_server_running := notification_server_running ns;
       notifications_sent := notifications_sent ns |})).

Definition notification_server_run (F : faults)
  : M dds_notification_server unit :=
  bind (extern F at_notification_server_run) (fun _ =>
  modify (fun ns =>
    {| notification_topic := notification_topic ns;
       discovery_notifications := discovery_notifications ns;
       notification_server_running := true;
       notifications_sent := notifications_sent ns |})).

Definition send_notification (F : faults) (msg : flexible_msg)
  : M dds_notification_server unit :=
  bind (extern F (at_send_notification msg)) (fun _ =>
  modify (fun ns =>
    {| notification_topic := notification_topic ns;
       discovery_notifications := discovery_notifications ns;
       notification_server_running := notification_server_running ns;
       notifications_sent := notifications_sent ns ++ [msg] |})).

(** [writer_qos] is [None] until the writer runs. *)
Record dds_topic_writer : Type := {
  writer_topic : string;
  writer_qos : option qos;
  written : list flexible_msg;
}.

(** A control message as the reader delivers it. *)
Record sample_info : Type := {
  writer_guid : string;
  sequence_number : Z;
}.

(** [json_data] parses the payload, which can fail. *)
Record control_sample : Type := {
  is_valid_msg : bool;
  json_data : outcome json;
  sample : sample_info;
}.

Record dds_topic_reader : Type := {
  reader_topic : string;
  reader_qos : option qos;
  data_available_callback : bool;
  pending : list control_sample;
}.

Record dds_device_broadcaster : Type := {
  broadcast_info : device_info;
}.

End Values.

(** What the device server is given by its environment:
    - [json_what], the texts of the JSON library's errors, and [dump],
      its printer [<<];
    - the names of the three topics under the topic root, constants of
      topics/dds-topic-names.h;
    - [option_to_json], the serialiser of an option, [opt->to_json()];
    - [override_from_json], the effect of
      [qos.override_from_json( settings.nested( "device", category ) )];
    - [HW], the state of the device behind the callbacks. *)
Class Platform {FT : Float} : Type := {
  json_what : json_failure -> string;
  dump : json -> string;
  NOTIFICATION_TOPIC_NAME : string;
  CONTROL_TOPIC_NAME : string;
  METADATA_TOPIC_NAME : string;
  option_to_json : dds_option -> json;
  override_from_json : string -> qos -> qos;
  HW : Type;
}.

Notation "'let*' x := m 'in' k" := (bind m (fun x => k))
  (at level 10, x name, m at level 100, k at level 200, only parsing).

Section Server.
Context {FT : Float} {PF : Platform}.

(** [e.what()] *)
Definition what (e : exception) : string :=
  match e with
  | std_exception w => w
  | json_exception f => json_what f
  end.

(** ** The callbacks *)

(** The callbacks read the option objects and act on the device; they
    do not write the option objects. *)
Definition set_option_callback : Type :=
  gmap handle dds_option -> handle -> float -> M HW unit.
Definition query_option_callback : Type :=
  gmap handle dds_option -> handle -> M HW float.
Definition control_callback : Type :=
  string -> json -> M (json * HW) bool.

(** ** The device server *)

(** The members the file reads and writes.  [_publisher], [_subscriber]
    and [_control_dispatcher] are handles into the transport and the
    dispatcher; what is done through them is a call that may fail
    ([site]). *)
Record dds_device_server : Type := {
  _topic_root : string;
  _notification_server : option dds_notification_server;
  _stream_name_to_server : gmap string dds_stream_server;
  _options : list handle;
  _metadata_writer : option dds_topic_writer;
  _control_reader : option dds_topic_reader;
  _broadcaster : option dds_device_broadcaster;
  _set_option_callback : option set_option_callback;
  _query_option_callback : option query_option_callback;
  _control_callback : option control_callback;
}.

(** The constructor: nothing but the topic root is set. *)
Definition new_dds_device_server (root : string) : dds_device_server :=
  {| _topic_root := root;
     _notification_server := None;
     _stream_name_to_server := ∅;
     _options := [];
     _metadata_writer := None;
     _control_reader := None;
     _broadcaster := None;
     _set_option_callback := None;
     _query_option_callback := None;
     _control_callback := None |}.

Definition with_notification_server (x : option dds_notification_server)
    (s : dds_device_server) : dds_device_server :=
  {| _topic_root := _topic_root s;
     _notification_server := x;
     _stream_name_to_server := _stream_name_to_server s;
     _options := _options s;
     _metadata_writer := _metadata_writer s;
     _control_reader := _control_reader s;
     _broadcaster := _broadcaster s;
     _set_option_callback := _set_option_callback s;
     _query_option_callback := _query_option_callback s;
     _control_callback := _control_callback s |}.

Definition with_stream_name_to_server
    (x : gmap string dds_stream_server)
    (s : dds_device_server) : dds_device_server :=
  {| _topic_root := _topic_root s;
     _notification_server := _notification_server s;
     _stream_name_to_server := x;
     _options := _options s;
     _metadata_writer := _metadata_writer s;
     _control_reader := _control_reader s;
     _broadcaster := _broadcaster s;
     _set_option_callback := _set_option_callback s;
     _query_option_callback := _query_option_callback s;
     _control_callback := _control_callback s |}.

Definition with_options (x : list handle)
    (s : dds_device_server) : dds_device_server :=
  {| _topic_root := _topic_root s;
     _notification_server := _notification_server s;
     _stream_name_to_server := _stream_name_to_server s;
     _options := x;
     _metadata_writer := _metadata_writer s;
     _control_reader := _control_reader s;
     _broadcaster := _broadcaster s;
     _set_option_callback := _set_option_callback s;
     _query_option_callback := _query_option_callback s;
     _control_callback := _control_callback s |}.

Definition with_metadata_writer (x : option dds_topic_writer)
    (s : dds_device_server) : dds_device_server :=
  {| _topic_root := _topic_root s;
     _notification_server := _notification_server s;
     _stream_name_to_server := _stream_name_to_server s;
     _options := _options s;
     _metadata_writer := x;
     _control_reader := _control_reader s;
     _broadcaster := _broadcaster s;
     _set_option_callback := _set_option_callback s;
     _query_option_callback := _query_option_callback s;
     _control_callback := _control_callback s |}.

Definition with_control_reader (x : option dds_topic_reader)
    (s : dds_device_server) : dds_device_server :=
  {| _topic_root := _topic_root s;
     _notification_server := _notification_server s;
     _stream_name_to_server := _stream_name_to_server s;
     _options := _options s;
     _metadata_writer := _metadata_writer s;
     _control_reader := x;
     _broadcaster := _broadcaster s;
     _set_option_callback := _set_option_callback s;
     _query_option_callback := _query_option_callback s;
     _control_callback := _control_callback s |}.

Definition with_broadcaster (x : option dds_device_broadcaster)
    (s : dds_device_server) : dds_device_server :=
  {| _topic_root := _topic_root s;
     _notification_server := _notification_server s;
     _stream_name_to_server := _stream_name_to_server s;
     _options := _options s;
     _metadata_writer := _metadata_writer s;
     _control_reader := _control_reader s;
     _broadcaster := x;
     _set_option_callback := _set_option_callback s;
     _query_option_callback := _query_option_callback s;
     _control_callback := _control_callback s |}.

(** [on_set_option]: the set-value callback is registered.
    Modelled from the spec: the member is defined in the header, outside
    this file; it stores the callback it is given. *)
Definition on_set_option (callback : set_option_callback)
    (s : dds_device_server) : dds_device_server :=
  {| _topic_root := _topic_root s;
     _notification_server := _notification_server s;
     _stream_name_to_server := _stream_name_to_server s;
     _options := _options s;
     _metadata_writer := _metadata_writer s;
     _control_reader := _control_reader s;
     _broadcaster := _broadcaster s;
     _set_option_callback := Some callback;
     _query_option_callback := _query_option_callback s;
     _control_callback := _control_callback s |}.

(** [is_valid].
    Modelled from the spec: the member is defined in the header, outside
    this file; a server is initialised when its notification channel
    exists, which is also what [guid] and [broadcast] test. *)
Definition is_valid (s : dds_device_server) : bool :=
  match _notification_server s with Some _ => true | None => false end.

(** [*_notification_server]: dereferencing the handle. *)
Definition deref_notification_server {A}
    (m : M dds_notification_server A) : M dds_device_server A :=
  fun s =>
    match _notification_server s with
    | Some ns =>
        let (r, ns') := m ns in
        (r, with_notification_server (Some ns') s)
    | None => (Undefined, s)
    end.

(** ** Discovery messages *)

Definition device_header_message (n_streams : nat) (extr : extrinsics_map)
  : flexible_msg :=
  json_object
    [ (id_key, JStr "device-header");
      ("n-streams", JInt (Z.of_nat n_streams));
      ("extrinsics",
        JArr (map (fun ex => JArr [ JStr ex.1.1; JStr ex.1.2;
                                    extrinsics_to_json ex.2 ]) extr)) ].

Definition device_options_message (heap : gmap handle dds_option)
    (options : list handle) : flexible_msg :=
  json_object
    [ (id_key, JStr "device-options");
      ("options", JArr (map (fun opt => option_to_json (heap !!! opt))
                            options)) ].

Definition on_discovery_device_header (F : faults)
    (heap : gmap handle dds_option) (n_streams : nat)
    (options : list handle) (extr : extrinsics_map)
  : M dds_notification_server unit :=
  let* _ := add_discovery_notification F
              (device_header_message n_streams extr) in
  add_discovery_notification F (device_options_message heap options).

Definition stream_header_message (stream : dds_stream_server)
  : flexible_msg :=
  json_object
    [ (id_key, JStr "stream-header");
      ("type", JStr (type_string stream));
      ("name", JStr (name stream));
      ("sensor-name", JStr (sensor_name stream));
      ("profiles", JArr (map profile_to_json (profiles stream)));
      ("default-profile-index", JInt (default_profile_index stream));
      ("metadata-enabled", JBool (metadata_enabled stream)) ].

Definition intrinsics_json (k : stream_kind) : json :=
  match k with
  | video_stream intrinsics =>
      JArr (map video_intrinsics_to_json intrinsics)
  | motion_stream accel gyro =>
      json_object [ ("accel", motion_intrinsics_to_json accel);
                    ("gyro", motion_intrinsics_to_json gyro) ]
  | other_stream => JNull
  end.

Definition stream_options_message (heap : gmap handle dds_option)
    (stream : dds_stream_server) : flexible_msg :=
  json_object
    [ (id_key, JStr "stream-options");
      ("stream-name", JStr (name stream));
      ("options", JArr (map (fun opt => option_to_json (heap !!! opt))
                            (options stream)));
      ("intrinsics", intrinsics_json (kind stream));
      ("recommended-filters",
        JArr (map JStr (recommended_filters stream))) ].

Definition on_discovery_stream_header (F : faults)
    (heap : gmap handle dds_option) (stream : dds_stream_server)
  : M dds_notification_server unit :=
  let* _ := add_discovery_notification F (stream_header_message stream) in
  add_discovery_notification F (stream_options_message heap stream).

(** ** Initialisation *)

Definition new_notification_server (topic : string)
  : dds_notification_server :=
  {| notification_topic := topic;
     discovery_notifications := [];
     notification_server_running := false;
     notifications_sent := [] |}.

Definition metadata_qos : qos :=
  override_from_json "metadata"
    {| qos_reliability := BEST_EFFORT_RELIABILITY_QOS;
       history_depth := Some 10%Z |}.

Definition control_qos : qos :=
  override_from_json "control"
    {| qos_reliability := RELIABLE_RELIABILITY_QOS;
       history_depth := None |}.

(** The body of the loop over the streams. *)
Definition init_stream (F : faults) (heap : gmap handle dds_option)
    (stream : dds_stream_server) : M dds_device_server unit :=
  let* root := gets _topic_root in
  let topic_name :=
    ros_friendly_topic_name (root +:+ "/" +:+ name stream) in
  let* _ := extern F (at_stream_open (name stream) topic_name) in
  let* _ := modify (fun s =>
              with_stream_name_to_server
                (<[name stream := stream]> (_stream_name_to_server s)) s) in
  let* _ := deref_notification_server
              (on_discovery_stream_header F heap stream) in
  let* writer := gets _metadata_writer in
  match metadata_enabled stream, writer with
  | true, None =>
      let topic := root +:+ METADATA_TOPIC_NAME in
      let* _ := extern F (at_create_topic topic) in
      let* _ := extern F at_make_topic_writer in
      let* _ := modify (with_metadata_writer
                  (Some {| writer_topic := topic; writer_qos := None;
                           written := [] |})) in
      let* _ := extern F (at_override_from_json "metadata") in
      let* _ := extern F at_topic_writer_run in
      modify (with_metadata_writer
                (Some {| writer_topic := topic;
                         writer_qos := Some metadata_qos;
                         written := [] |}))
  | _, _ => ret tt
  end.

(** The [try] block of [init]. *)
Definition init_try (F : faults) (heap : gmap handle dds_option)
    (streams : list dds_stream_server) (options : list handle)
    (extr : extrinsics_map) : M dds_device_server unit :=
  let* root := gets _topic_root in
  let* _ := extern F (at_make_notification_server
                        (root +:+ NOTIFICATION_TOPIC_NAME)) in
  let* _ := modify (with_notification_server
              (Some (new_notification_server
                       (root +:+ NOTIFICATION_TOPIC_NAME)))) in
  let* _ := modify (with_stream_name_to_server ∅) in
  let* _ := modify (with_options options) in
  let* _ := deref_notification_server
              (on_discovery_device_header F heap (length streams)
                 options extr) in
  let* _ := for_each (init_stream F heap) streams in
  let* _ := deref_notification_server (notification_server_run F) in
  let topic := root +:+ CONTROL_TOPIC_NAME in
  let* _ := extern F (at_create_topic topic) in
  let* _ := extern F at_make_topic_reader in
  let* _ := modify (with_control_reader
              (Some {| reader_topic := topic; reader_qos := None;
                       data_available_callback := false;
                       pending := [] |})) in
  let* _ := modify (with_control_reader
              (Some {| reader_topic := topic; reader_qos := None;
                       data_available_callback := true;
                       pending := [] |})) in
  let* _ := extern F (at_override_from_json "control") in
  let* _ := extern F at_topic_reader_run in
  modify (with_control_reader
            (Some {| reader_topic := topic; reader_qos := Some control_qos;
                     data_available_callback := true;
                     pending := [] |})).

(** The [catch] block of [init]. *)
Definition init_catch (e : exception) : M dds_device_server unit :=
  let* _ := modify (with_notification_server None) in
  let* _ := modify (with_stream_name_to_server ∅) in
  let* _ := modify (with_control_reader None) in
  throw e.

Definition init (F : faults) (heap : gmap handle dds_option)
    (streams : list dds_stream_server) (options : list handle)
    (extr : extrinsics_map) : M dds_device_server unit :=
  let* s := get in
  if is_valid s
  then DDS_THROW ("device server '" +:+ _topic_root s
                  +:+ "' is already initialized")
  else try_catch (init_try F heap streams options extr) init_catch.

(** ** Broadcast *)

Definition broadcast (F : faults) (device_info : device_info)
  : M dds_device_server unit :=
  let* s := get in
  match _broadcaster s, _notification_server s with
  | Some _, _ => DDS_THROW "device server was already broadcast"
  | None, None => DDS_THROW "not initialized"
  | None, Some _ =>
      if negb (String.eqb (topic_root device_info) (_topic_root s))
      then DDS_THROW "device-info topic root does not match"
      else
        let* _ := extern F at_make_device_broadcaster in
        modify (with_broadcaster
                  (Some {| broadcast_info := device_info |}))
  end.

Definition broadcast_disconnect (F : faults) (ack_timeout : Z)
  : M dds_device_server unit :=
  let* s := get in
  match _broadcaster s with
  | Some _ =>
      let* _ := extern F (at_broadcast_disconnect ack_timeout) in
      modify (with_broadcaster None)
  | None => ret tt
  end.

(** ** Publishing *)

Definition publish_notification (F : faults) (notification : flexible_msg)
  : M dds_device_server unit :=
  deref_notification_server (send_notification F notification).

Definition publish_metadata (F : faults) (md : json)
  : M dds_device_server unit :=
  let* s := get in
  match _metadata_writer s with
  | None =>
      DDS_THROW ("device '" +:+ _topic_root s
                 +:+ "' has no stream with enabled metadata")
  | Some w =>
      let* _ := extern F (at_write_to md) in
      modify (with_metadata_writer
                (Some {| writer_topic := writer_topic w;
                         writer_qos := writer_qos w;
                         written := written w ++ [md] |}))
  end.

(** ** Option lookup *)

(** The loop both branches of [find_option] run over a list of options. *)
Fixpoint find_by_name (heap : gmap handle dds_option) (option_name : string)
    (opts : list handle) : option handle :=
  match opts with
  | [] => None
  | opt :: rest =>
      if String.eqb (get_name (heap !!! opt)) option_name
      then Some opt
      else find_by_name heap option_name rest
  end.

Definition find_option (srv : dds_device_server)
    (heap : gmap handle dds_option) (option_name stream_name : string)
  : option handle :=
  if String.eqb stream_name ""
  then find_by_name heap option_name (_options srv)
  else
    match _stream_name_to_server srv !! stream_name with
    | Some stream => find_by_name heap option_name (options stream)
    | None => None
    end.

(** ** Control handlers *)

(** What a handler works on: the option objects and the device. *)
Record world : Type := {
  heap : gmap handle dds_option;
  hw : HW;
}.

(** A handler's state is the reply it is given by reference and the
    world. *)
Definition on_reply (f : json -> outcome json) : M (json * world) unit :=
  fun s =>
    match f s.1 with
    | Ok reply => (Ok tt, (reply, s.2))
    | Throw e => (Throw e, s)
    | Undefined => (Undefined, s)
    end.

Definition on_world {A} (m : M world A) : M (json * world) A :=
  zoom snd (fun w s => (s.1, w)) m.

Definition on_hw {A} (m : M HW A) : M world A :=
  zoom hw (fun h w => {| heap := heap w; hw := h |}) m.

(** [opt->set_value( value )] *)
Definition set_option_value (opt : handle) (value : float) : M world unit :=
  modify (fun w =>
    {| heap := <[opt := set_value value (heap w !!! opt)]> (heap w);
       hw := hw w |}).

(** The name of a scope in an error text. *)
Definition scope_text (stream_name : string) : string :=
  if String.eqb stream_name "" then "device"
  else "'" +:+ stream_name +:+ "'".

Definition not_found_text (stream_name option_name : string) : string :=
  scope_text stream_name +:+ " option '" +:+ option_name +:+ "' not found".

Definition handle_set_option (srv : dds_device_server) (j : json)
  : M (json * world) unit :=
  let* name_j := lift (json_at option_name_key j) in
  let* option_name := lift (string_ref name_j) in
  let* stream_name := lift (get_ex "" (nested stream_name_key j)) in
  let* w := gets snd in
  match find_option srv (heap w) option_name stream_name with
  | Some opt =>
      let* value_j := lift (json_at value_key j) in
      let* value := lift (json_get_float value_j) in
      let* _ := match _set_option_callback srv with
                | Some callback =>
                    on_world (fun w => on_hw (callback (heap w) opt value) w)
                | None => ret tt
                end in
      let* _ := on_world (set_option_value opt value) in
      on_reply (json_set value_key (JFloat value))
  | None => DDS_THROW (not_found_text stream_name option_name)
  end.

(** The lambda [query_option].  In [x[ k ] = query_option( o )] the
    right operand is evaluated first; the order shows only in what the
    reply holds when the query throws. *)
Definition query_option (srv : dds_device_server) (opt : handle)
  : M world float :=
  match _query_option_callback srv with
  | Some callback =>
      let* value := (fun w => on_hw (callback (heap w) opt) w) in
      let* _ := set_option_value opt value in
      ret value
  | None => gets (fun w => get_value (heap w !!! opt))
  end.

(** The lambda [query_option_j].  Its write to the captured
    [stream_name] is followed by the throw at once and is not seen. *)
Definition query_option_j (srv : dds_device_server) (stream_name : string)
    (j : json) : M world float :=
  match j with
  | JStr option_name =>
      let* w := get in
      match find_option srv (heap w) option_name stream_name with
      | Some opt => query_option srv opt
      | None => DDS_THROW (not_found_text stream_name option_name)
      end
  | _ => DDS_THROW ("option name should be a string; got " +:+ dump j)
  end.

(** [reply[ key ][ name ] = v] through the reference taken to
    [reply[ key ]]. *)
Definition json_update (k : string) (f : json -> outcome json) (j : json)
  : outcome json :=
  match j with
  | JObj kvs =>
      match f (default JNull (obj_find k kvs)) with
      | Ok v => Ok (JObj (obj_set k v kvs))
      | Throw e => Throw e
      | Undefined => Undefined
      end
  | JNull =>
      match f JNull with
      | Ok v => Ok (JObj [(k, v)])
      | Throw e => Throw e
      | Undefined => Undefined
      end
  | _ => Throw (json_exception (type_error "operator[]" j))
  end.

(** The loop [option_values[ name ] = query_option( option )]. *)
Definition query_all_body (srv : dds_device_server) (opt : handle)
  : M (json * world) unit :=
  let* value := on_world (query_option srv opt) in
  let* w := gets snd in
  on_reply (json_update option_values_key
              (json_set (get_name (heap w !!! opt)) (JFloat value))).

Definition query_all (srv : dds_device_server) (opts : list handle)
  : M (json * world) unit :=
  for_each (query_all_body srv) opts.

(** The loop [value.push_back( query_option_j( option_name.at( x ) ) )]. *)
Definition query_each_body (srv : dds_device_server) (stream_name : string)
    (x : json) : M (json * world) unit :=
  let* value := on_world (query_option_j srv stream_name x) in
  on_reply (json_update value_key (json_push_back (JFloat value))).

Definition query_each (srv : dds_device_server) (stream_name : string)
    (names : list json) : M (json * world) unit :=
  for_each (query_each_body srv stream_name) names.

Definition handle_query_option (srv : dds_device_server) (j : json)
  : M (json * world) unit :=
  let* stream_name := lift (get_ex "" (nested stream_name_key j)) in
  match nested option_name_key j with
  | JArr [] =>
      let* _ := on_reply (json_set option_values_key (JObj [])) in
      if String.eqb stream_name ""
      then query_all srv (_options srv)
      else
        match _stream_name_to_server srv !! stream_name with
        | Some stream => query_all srv (options stream)
        | None => ret tt
        end
  | JArr names =>
      let* _ := on_reply (json_update value_key Ok) in
      query_each srv stream_name names
  | option_name =>
      let* value := on_world (query_option_j srv stream_name option_name) in
      on_reply (json_set value_key (JFloat value))
  end.

Definition handle_control_message (srv : dds_device_server) (id : string)
    (j : json) : M (json * world) unit :=
  if String.eqb id id_set_option then handle_set_option srv j
  else if String.eqb id id_query_option then handle_query_option srv j
  else
    match _control_callback srv with
    | None => DDS_THROW "invalid control"
    | Some callback =>
        let* handled :=
          zoom (fun s => (s.1, hw s.2))
               (fun r s => (r.1, {| heap := heap s.2; hw := r.2 |}))
               (callback id j) in
        if handled : bool then ret tt else DDS_THROW "invalid control"
    end.

(** ** The dispatcher task of a control message *)

Definition sample_json (sample : sample_info) : json :=
  JArr [ JStr (writer_guid sample); JInt (sequence_number sample) ].

(** The first [try] block of the task. *)
Definition control_try (srv : dds_device_server) (j : json)
  : M (json * world) unit :=
  let* id_j := lift (json_at id_key j) in
  let* id := lift (string_ref id_j) in
  let* _ := on_reply (json_set id_key (JStr id)) in
  let* _ := on_reply (json_set control_key j) in
  handle_control_message srv id j.

(** Its [catch] block. *)
Definition control_catch (e : exception) : M (json * world) unit :=
  let* _ := on_reply (json_set status_key (JStr "error")) in
  on_reply (json_set explanation_key (JStr (what e))).

(** The task up to the reply it is about to publish. *)
Definition control_reply (srv : dds_device_server) (j : json)
    (sample : sample_info) : M (json * world) unit :=
  let* _ := on_reply (json_set sample_key (sample_json sample)) in
  try_catch (control_try srv j) control_catch.

(** The whole task: [json reply;], the reply is built, then published
    under [catch( ... )]. *)
Definition control_task (F : faults) (j : json) (sample : sample_info)
  : M (dds_device_server * world) unit :=
  fun s =>
    match control_reply s.1 j sample (JNull, s.2) with
    | (Ok _, (reply, w)) =>
        let (r, srv) :=
          try_catch (publish_notification F reply) (fun _ => ret tt) s.1 in
        (r, (srv, w))
    | (Throw e, (_, w)) => (Throw e, (s.1, w))
    | (Undefined, (_, w)) => (Undefined, (s.1, w))
    end.

(** The reply a task hands to [publish_notification]. *)
Definition reply_of (srv : dds_device_server) (j : json)
    (sample : sample_info) (w : world) : json :=
  (control_reply srv j sample (JNull, w)).2.1.

(** The loop of [on_control_message_received] over what the reader
    holds: each message is taken, an invalid one is skipped, a valid one
    is parsed and handed to [_control_dispatcher.invoke].  The state is
    what the reader still holds and the tasks handed over, in order. *)
Fixpoint take_all (messages : list control_sample)
  : M (list control_sample * list (json * sample_info)) unit :=
  match messages with
  | [] => ret tt
  | data :: rest =>
      let* _ := modify (fun s => (rest, s.2)) in
      if is_valid_msg data
      then
        let* j := lift (json_data data) in
        let* _ := modify (fun s => (s.1, s.2 ++ [(j, sample data)])) in
        take_all rest
      else take_all rest
  end.

Definition on_control_message_received
  : M (dds_device_server * list (json * sample_info)) unit :=
  fun s =>
    match _control_reader s.1 with
    | None => (Undefined, s)
    | Some reader =>
        let (r, st) := take_all (pending reader) (pending reader, s.2) in
        (r, (with_control_reader
               (Some {| reader_topic := reader_topic reader;
                        reader_qos := reader_qos reader;
                        data_available_callback :=
                          data_available_callback reader;
                        pending := st.1 |}) s.1, st.2))
    end.

(** ** Specifications *)

(** The channel after [msgs] were handed to it. *)
Definition handed (msgs : list flexible_msg) (ns : dds_notification_server)
  : dds_notification_server :=
  {| notification_topic := notification_topic ns;
     discovery_notifications := discovery_notifications ns ++ msgs;
     notification_server_running := notification_server_running ns;
     notifications_sent := notifications_sent ns |}.

(** The discovery pair of each stream, in the order of the list. *)
Definition stream_messages (heap : gmap handle dds_option)
    (streams : list dds_stream_server) : list flexible_msg :=
  flat_map (fun stream => [ stream_header_message stream;
                            stream_options_message heap stream ]) streams.

Definition is_object (j : json) : Prop := exists kvs, j = JObj kvs.

(** A handler that is given an object as the reply leaves an object,
    whether it returns or throws. *)
Definition keeps_object {A} (m : M (json * world) A) : Prop :=
  forall s, is_object s.1 -> is_object (m s).2.1.

(** What is asked of a custom control callback: handed an object as the
    reply, it leaves an object. *)
Definition control_callback_keeps_object (srv : dds_device_server) : Prop :=
  forall callback id j reply h,
    _control_callback srv = Some callback ->
    is_object reply -> is_object (callback id j (reply, h)).2.1.

(** The reply as the [try] block of a task receives it. *)
Definition reply_shell (sample : sample_info) : json :=
  JObj [(sample_key, sample_json sample)].

(** The channel after a notification was sent through it. *)
Definition sent (msg : flexible_msg) (ns : dds_notification_server)
  : dds_notification_server :=
  {| notification_topic := notification_topic ns;
     discovery_notifications := discovery_notifications ns;
     notification_server_running := notification_server_running ns;
     notifications_sent := notifications_sent ns ++ [msg] |}.

(** The options of a scope: the device's for the empty stream name, the
    named stream's when there is such a stream, none otherwise. *)
Definition scope_options (srv : dds_device_server) (stream_name : string)
  : list handle :=
  if String.eqb stream_name "" then _options srv
  else
    match _stream_name_to_server srv !! stream_name with
    | Some stream => options stream
    | None => []
    end.



(** The specification of querying the options named by [names]: each is
    resolved and queried, one after the other, up to the first failure. *)
Fixpoint query_names_in_order (srv : dds_device_server) (stream_name : string)
    (names : list json) : M world (list float) :=
  match names with
  | [] => ret []
  | x :: rest =>
      let* value := query_option_j srv stream_name x in
      let* values := query_names_in_order srv stream_name rest in
      ret (value :: values)
  end.

Definition items (j : json) : list json :=
  match j with JArr xs => xs | _ => [] end.

(** The [value] field after [values] were pushed to it. *)
Definition pushed (cur : json) (values : list float) : json :=
  match values with
  | [] => cur
  | _ => JArr (items cur ++ map JFloat values)
  end.

(** The task a delivered message becomes: none for an invalid message. *)
Definition task_of (data : control_sample) : option (json * sample_info) :=
  if is_valid_msg data
  then
    match json_data data with
    | Ok j => Some (j, sample data)
    | _ => None
    end
  else None.

(** A computation that has defined behaviour from every state. *)
Definition defined {S A} (m : M S A) : Prop :=
  forall s, (m s).1 <> Undefined.

(** The callbacks of a server have defined behaviour. *)
Definition callbacks_defined (srv : dds_device_server) : Prop :=
  (forall callback heap opt value,
     _set_option_callback srv = Some callback ->
     defined (callback heap opt value))
  /\ (forall callback heap opt,
        _query_option_callback srv = Some callback ->
        defined (callback heap opt))
  /\ (forall callback id j,
        _control_callback srv = Some callback -> defined (callback id j)).

(** The stream map after [streams] were registered on [m], in order. *)
Definition registered (m : gmap string dds_stream_server)
    (streams : list dds_stream_server) : gmap string dds_stream_server :=
  foldl (fun m stream => <[name stream := stream]> m) m streams.

(** The metadata writer and the control reader once they run. *)
Definition started_writer (root : string) : dds_topic_writer :=
  {| writer_topic := root +:+ METADATA_TOPIC_NAME;
     writer_qos := Some metadata_qos;
     written := [] |}.

Definition started_reader (root : string) : dds_topic_reader :=
  {| reader_topic := root +:+ CONTROL_TOPIC_NAME;
     reader_qos := Some control_qos;
     data_available_callback := true;
     pending := [] |}.

(** The metadata writer after the loop over [streams], started from
    [writer]: the one there was, else a new one when a stream has
    metadata enabled. *)
Definition writer_after (root : string) (streams : list dds_stream_server)
    (writer : option dds_topic_writer) : option dds_topic_writer :=
  match writer with
  | Some w => Some w
  | None =>
      if existsb metadata_enabled streams
      then Some (started_writer root)
      else None
  end.

(** The notification channel at the end of [init]. *)
Definition started_channel (root : string) (heap : gmap handle dds_option)
    (streams : list dds_stream_server) (options : list handle)
    (extr : extrinsics_map) : dds_notification_server :=
  {| notification_topic := root +:+ NOTIFICATION_TOPIC_NAME;
     discovery_notifications :=
       device_header_message (length streams) extr
       :: device_options_message heap options
       :: stream_messages heap streams;
     notification_server_running := true;
     notifications_sent := [] |}.

(** The server a successful [init] leaves. *)
Definition initialised (srv : dds_device_server)
    (heap : gmap handle dds_option) (streams : list dds_stream_server)
    (options : list handle) (extr : extrinsics_map) : dds_device_server :=
  {| _topic_root := _topic_root srv;
     _notification_server :=
       Some (started_channel (_topic_root srv) heap streams options extr);
     _stream_name_to_server := registered ∅ streams;
     _options := options;
     _metadata_writer :=
       writer_after (_topic_root srv) streams (_metadata_writer srv);
     _control_reader := Some (started_reader (_topic_root srv));
     _broadcaster := _broadcaster srv;
     _set_option_callback := _set_option_callback srv;
     _query_option_callback := _query_option_callback srv;
     _control_callback := _control_callback srv |}.

(** The members neither [init] nor a control task writes. *)
Definition same_frame (s s' : dds_device_server) : Prop :=
  _topic_root s' = _topic_root s
  /\ _broadcaster s' = _broadcaster s
  /\ _set_option_callback s' = _set_option_callback s
  /\ _query_option_callback s' = _query_option_callback s
  /\ _control_callback s' = _control_callback s.

(** A computation on the server that keeps them, however it ends. *)
Definition frame_kept {A} (m : M dds_device_server A) : Prop :=
  forall s, same_frame s (m s).2.

(** A computation on the server that, started with a notification
    channel, keeps one and has defined behaviour. *)
Definition channel_safe {A} (m : M dds_device_server A) : Prop :=
  forall s,
    is_Some (_notification_server s) ->
    (m s).1 <> Undefined /\ is_Some (_notification_server (m s).2).

(** A handler that leaves the field [k] of the reply as it was, however
    it ends. *)
Definition field_kept (k : string) {A} (m : M (json * world) A) : Prop :=
  forall s, field k (m s).2.1 = field k s.1.

(** The reply as the handlers receive it: the sample, the id and the
    control message. *)
Definition reply_echo_of (sample : sample_info) (id : string) (j : json)
  : json :=
  JObj [ (control_key, j); (id_key, JStr id);
         (sample_key, sample_json sample) ].

(** A discovery message that carries the given id. *)
Definition has_id (id : string) (msg : flexible_msg) : bool :=
  match field id_key msg with
  | Some (JStr s) => String.eqb s id
  | _ => false
  end.

(** The stream headers of a discovery cache, in its order. *)
Definition stream_headers (msgs : list flexible_msg) : list flexible_msg :=
  List.filter (has_id "stream-header") msgs.

(** *** What the discovery messages carry *)

(** The keys of an object, in its order. *)
Definition keys (j : json) : list string :=
  match j with
  | JObj kvs => map fst kvs
  | _ => []
  end.

(** A device-header message: the stream count and the extrinsics
    triples. *)
Definition is_device_header (n_streams : nat) (extr : extrinsics_map)
    (msg : flexible_msg) : Prop :=
  keys msg = ["extrinsics"; "id"; "n-streams"]
  /\ field "id" msg = Some (JStr "device-header")
  /\ field "n-streams" msg = Some (JInt (Z.of_nat n_streams))
  /\ field "extrinsics" msg
     = Some (JArr (map (fun ex => JArr [ JStr ex.1.1; JStr ex.1.2;
                                         extrinsics_to_json ex.2 ]) extr)).

(** A device-options message: every device option, in order. *)
Definition is_device_options (heap : gmap handle dds_option)
    (options : list handle) (msg : flexible_msg) : Prop :=
  keys msg = ["id"; "options"]
  /\ field "id" msg = Some (JStr "device-options")
  /\ field "options" msg
     = Some (JArr (map (fun opt => option_to_json (heap !!! opt)) options)).

(** The stream-header message of a stream. *)
Definition is_stream_header (stream : dds_stream_server)
    (msg : flexible_msg) : Prop :=
  keys msg = [ "default-profile-index"; "id"; "metadata-enabled"; "name";
               "profiles"; "sensor-name"; "type" ]
  /\ field "id" msg = Some (JStr "stream-header")
  /\ field "type" msg = Some (JStr (type_string stream))
  /\ field "name" msg = Some (JStr (name stream))
  /\ field "sensor-name" msg = Some (JStr (sensor_name stream))
  /\ field "profiles" msg
     = Some (JArr (map profile_to_json (profiles stream)))
  /\ field "default-profile-index" msg
     = Some (JInt (default_profile_index stream))
  /\ field "metadata-enabled" msg = Some (JBool (metadata_enabled stream)).

(** The stream-options message of a stream: its options, its
    intrinsics (an array for a video stream, accel and gyro for a motion
    stream, null otherwise) and its recommended filters. *)
Definition is_stream_options (heap : gmap handle dds_option)
    (stream : dds_stream_server) (msg : flexible_msg) : Prop :=
  keys msg = [ "id"; "intrinsics"; "options"; "recommended-filters";
               "stream-name" ]
  /\ field "id" msg = Some (JStr "stream-options")
  /\ field "stream-name" msg = Some (JStr (name stream))
  /\ field "options" msg
     = Some (JArr (map (fun opt => option_to_json (heap !!! opt))
                       (options stream)))
  /\ field "intrinsics" msg
     = Some match kind stream with
            | video_stream intrinsics =>
                JArr (map video_intrinsics_to_json intrinsics)
            | motion_stream accel gyro =>
                JObj [ ("accel", motion_intrinsics_to_json accel);
                       ("gyro", motion_intrinsics_to_json gyro) ]
            | other_stream => JNull
            end
  /\ field "recommended-filters" msg
     = Some (JArr (map JStr (recommended_filters stream))).

(** [msgs] is, for each stream in order, its stream-header message
    followed by its stream-options message, and nothing else. *)
Fixpoint stream_pairs (heap : gmap handle dds_option)
    (streams : list dds_stream_server) (msgs : list flexible_msg) : Prop :=
  match streams, msgs with
  | [], [] => True
  | stream :: streams', header :: stream_options :: msgs' =>
      is_stream_header stream header
      /\ is_stream_options heap stream stream_options
      /\ stream_pairs heap streams' msgs'
  | _, _ => False
  end.

(** The calls [init] makes for one stream, from the topic root [root]:
    the stream is opened, its two messages are handed over, and the
    metadata writer is made and started if it is needed. *)
Definition stream_calls (root : string) (heap : gmap handle dds_option)
    (stream : dds_stream_server) : list site :=
  [ at_stream_open (name stream)
      (ros_friendly_topic_name (root +:+ "/" +:+ name stream));
    at_add_discovery_notification (stream_header_message stream);
    at_add_discovery_notification (stream_options_message heap stream);
    at_create_topic (root +:+ METADATA_TOPIC_NAME);
    at_make_topic_writer;
    at_override_from_json "metadata";
    at_topic_writer_run ].

End Server.

(** ** A camera with one colour stream *)

(** Option values are integers. *)
Definition camera_float : Float := {| float := Z; float_of_int := id |}.

Section Camera.
#[local] Existing Instance camera_float.

Definition camera_json_what (f : json_failure) : string :=
  match f with
  | out_of_range key => "key '" +:+ key +:+ "' not found"
  | type_error operation _ => "cannot use " +:+ operation
  end.

Definition camera_dump (j : json) : string :=
  match j with
  | JStr s => s
  | _ => "<json>"
  end.

Definition camera_option_to_json (o : dds_option) : json :=
  JObj [("name", JStr (get_name o)); ("value", JFloat (get_value o))].

(** The device keeps the values applied to it, newest first; the settings
    override nothing. *)
Definition camera_platform : Platform :=
  {| json_what := camera_json_what;
     dump := camera_dump;
     NOTIFICATION_TOPIC_NAME := "/notification";
     CONTROL_TOPIC_NAME := "/control";
     METADATA_TOPIC_NAME := "/metadata";
     option_to_json := camera_option_to_json;
     override_from_json := fun _ q => q;
     HW := list (handle * Z) |}.

#[local] Existing Instance camera_platform.

(** The option objects: the stream's exposure and the device's option. *)
Definition camera_heap : gmap handle dds_option :=
  <[0 := {| get_name := "exposure"; get_value := 100%Z;
            properties := JNull |}]>
    (<[1 := {| get_name := "a"; get_value := 7%Z; properties := JNull |}]> ∅).

Definition color : dds_stream_server :=
  {| name := "color";
     type_string := "color";
     sensor_name := "RGB Camera";
     profiles := [ {| profile_to_json := JStr "640x480 rgb8 @ 30 Hz" |} ];
     default_profile_index := 0;
     metadata_enabled := true;
     options := [0];
     kind := video_stream [ {| video_intrinsics_to_json := JStr "640x480" |} ];
     recommended_filters := ["Decimation Filter"] |}.

(** [init] of the camera: the stream color and the device option. *)
Definition camera_init (F : faults) : M dds_device_server unit :=
  init F camera_heap [color] [1] [].

Definition camera : dds_device_server :=
  new_dds_device_server "realsense/D435".

(** The camera after an [init] without faults. *)
Definition camera_ready : dds_device_server :=
  (camera_init no_faults camera).2.

(** Its notification channel. *)
Definition camera_channel : dds_notification_server :=
  default (new_notification_server "") (_notification_server camera_ready).

Definition camera_world : world := {| heap := camera_heap; hw := [] |}.

Definition client : sample_info :=
  {| writer_guid := "010f.1a2b"; sequence_number := 1 |}.

(** The metadata writer cannot be started. *)
Definition writer_run_fails : faults :=
  fun x =>
    match x with
    | at_topic_writer_run => Some (std_exception "writer cannot run")
    | _ => None
    end.

(** A device that refuses every value. *)
Definition device_busy : set_option_callback :=
  fun _ _ _ h => (Throw (std_exception "device busy"), h).

(** A device that applies every value. *)
Definition device_applies : set_option_callback :=
  fun _ opt value h => (Ok tt, (opt, value) :: h).

(** The control messages of the scenario. *)
Definition set_exposure : json :=
  JObj [ ("id", JStr "set-option"); ("option-name", JStr "exposure");
         ("stream-name", JStr "color"); ("value", JInt 150) ].

Definition set_gain : json :=
  JObj [ ("id", JStr "set-option"); ("option-name", JStr "gain");
         ("value", JInt 16) ].

Definition set_depth_exposure : json :=
  JObj [ ("id", JStr "set-option"); ("option-name", JStr "exposure");
         ("stream-name", JStr "depth"); ("value", JInt 1) ].

Definition query_a_b : json :=
  JObj [ ("id", JStr "query-option");
         ("option-name", JArr [JStr "a"; JStr "b"]) ].

Definition query_all_of (stream_name : string) : json :=
  JObj [ ("id", JStr "query-option"); ("option-name", JArr []);
         ("stream-name", JStr stream_name) ].

Definition no_id : json := JObj [("option-name", JStr "exposure")].

(** The camera after [broadcast]. *)
Definition camera_info : device_info :=
  {| topic_root := "realsense/D435"; info := JStr "Intel RealSense D435" |}.

Definition camera_on_air : dds_device_server :=
  with_broadcaster (Some {| broadcast_info := camera_info |}) camera_ready.

(** The camera after an [init] in which the metadata writer could not be
    started. *)
Definition camera_failed : dds_device_server :=
  (camera_init writer_run_fails camera).2.

(** More control messages. *)
Definition query_exposure : json :=
  JObj [ ("id", JStr "query-option"); ("option-name", JStr "exposure");
         ("stream-name", JStr "color") ].


Definition set_exposure_high : json :=
  JObj [ ("id", JStr "set-option"); ("option-name", JStr "exposure");
         ("stream-name", JStr "color"); ("value", JStr "high") ].

Definition hw_reset : json := JObj [ ("id", JStr "hw-reset") ].

(** What the control reader can hold: a message that parses, a sample
    without data, and a message that does not parse. *)
Definition delivered (j : json) (n : Z) : control_sample :=
  {| is_valid_msg := true;
     json_data := Ok j;
     sample := {| writer_guid := "010f.1a2b"; sequence_number := n |} |}.

Definition disposed (n : Z) : control_sample :=
  {| is_valid_msg := false;
     json_data := Ok JNull;
     sample := {| writer_guid := "010f.1a2b"; sequence_number := n |} |}.

Definition garbled (n : Z) : control_sample :=
  {| is_valid_msg := true;
     json_data := Throw (std_exception "parse error");
     sample := {| writer_guid := "010f.1a2b"; sequence_number := n |} |}.

(** The camera with messages waiting in its control reader. *)
Definition camera_reader (messages : list control_sample)
  : dds_topic_reader :=
  {| reader_topic := "realsense/D435/control";
     reader_qos := Some control_qos;
     data_available_callback := true;
     pending := messages |}.

Definition camera_hearing (messages : list control_sample)
  : dds_device_server :=
  with_control_reader (Some (camera_reader messages)) camera_ready.

(** Two custom control callbacks.  The first refuses a hardware reset
    with an exception and declines everything else; it leaves the reply
    alone.  The second replaces the reply by an empty array and
    declines. *)
Definition streaming_guard : control_callback :=
  fun id _ s =>
    if String.eqb id "hw-reset"
    then (Throw (std_exception "device is streaming"), s)
    else (Ok false, s).

Definition reply_clobbered : control_callback :=
  fun _ _ s => (Ok false, (JArr [], s.2)).

(** The camera with a custom control callback registered. *)
Definition camera_with_control (callback : control_callback)
  : dds_device_server :=
  {| _topic_root := _topic_root camera_ready;
     _notification_server := _notification_server camera_ready;
     _stream_name_to_server := _stream_name_to_server camera_ready;
     _options := _options camera_ready;
     _metadata_writer := _metadata_writer camera_ready;
     _control_reader := _control_reader camera_ready;
     _broadcaster := _broadcaster camera_ready;
     _set_option_callback := _set_option_callback camera_ready;
     _query_option_callback := _query_option_callback camera_ready;
     _control_callback := Some callback |}.

(** A second stream: the motion module, without metadata. *)
Definition motion : dds_stream_server :=
  {| name := "motion";
     type_string := "motion";
     sensor_name := "Motion Module";
     profiles := [ {| profile_to_json := JStr "xyz32f @ 200 Hz" |} ];
     default_profile_index := 0;
     metadata_enabled := false;
     options := [];
     kind := motion_stream {| motion_intrinsics_to_json := JStr "accel" |}
                           {| motion_intrinsics_to_json := JStr "gyro" |};
     recommended_filters := [] |}.

(** The camera after an [init] with both streams. *)
Definition camera_both : dds_device_server :=
  (init no_faults camera_heap [color; motion] [1] [] camera).2.

(** The channel refuses every stream-options message. *)
Definition stream_options_refused : faults :=
  fun x =>
    match x with
    | at_add_discovery_notification msg =>
        if has_id "stream-options" msg
        then Some (std_exception "channel closed")
        else None
    | _ => None
    end.

(** The topic of the stream color is in use; and every topic but that
    one is. *)
Definition color_topic_busy : faults :=
  fun x =>
    match x with
    | at_stream_open _ topic =>
        if String.eqb topic "rt/realsense/D435_color"
        then Some (std_exception "topic in use")
        else None
    | _ => None
    end.

Definition other_topics_busy : faults :=
  fun x =>
    match x with
    | at_stream_open _ topic =>
        if String.eqb topic "rt/realsense/D435_color"
        then None
        else Some (std_exception "topic in use")
    | _ => None
    end.

End Camera.

(** ** Properties *)

Section Properties.
Context {FT : Float} {PF : Platform}.

(** *** Reasoning about monadic code *)

Lemma bind_Ok {S A B} (m : M S A) (k : A -> M S B) s b s' :
  bind m k s = (Ok b, s') ->
  exists a s1, m s = (Ok a, s1) /\ k a s1 = (Ok b, s').
Proof.
  unfold bind. destruct (m s) as [[a | e |] s1]; try discriminate.
  intros H. by exists a, s1.
Qed.

Lemma bind_run_Ok {S A B} (m : M S A) (k : A -> M S B) s a s1 :
  m s = (Ok a, s1) -> bind m k s = k a s1.
Proof. unfold bind. by intros ->. Qed.

Lemma extern_Ok {S} (F : faults) (x : site) (s s' : S) u :
  extern F x s = (Ok u, s') -> F x = None /\ s' = s.
Proof.
  unfold extern. destruct (F x); [discriminate |].
  intros H. by inversion H.
Qed.

Lemma try_catch_Ok {S A} (m : M S A) h s a s' :
  m s = (Ok a, s') -> try_catch m h s = (Ok a, s').
Proof. unfold try_catch. by intros ->. Qed.

Lemma try_catch_Throw {S A} (m : M S A) h s e s' :
  m s = (Throw e, s') -> try_catch m h s = h e s'.
Proof. unfold try_catch. by intros ->. Qed.

(** Splits a successful run of a sequence into its steps. *)
Ltac run_inv H :=
  repeat match type of H with
  | bind _ _ _ = (Ok _, _) =>
      let a := fresh "a" in let s1 := fresh "s" in
      let H1 := fresh "Hstep" in
      apply bind_Ok in H as (a & s1 & H1 & H)
  end.

(** One step of a successful run. *)
Ltac run_step :=
  match goal with
  | H : bind _ _ _ = (Ok _, _) |- _ => apply bind_Ok in H as (? & ? & ? & H)
  | H : extern _ _ _ = (Ok _, _) |- _ => apply extern_Ok in H as [_ ?]; subst
  | H : gets _ _ = (Ok _, _) |- _ => unfold gets in H; simplify_eq
  | H : get _ = (Ok _, _) |- _ => unfold get in H; simplify_eq
  | H : modify _ _ = (Ok _, _) |- _ => unfold modify in H; simplify_eq
  | H : ret _ _ = (Ok _, _) |- _ => unfold ret in H; simplify_eq
  end.

(** *** Objects *)

Lemma obj_find_set_eq k v kvs : obj_find k (obj_set k v kvs) = Some v.
Proof.
  induction kvs as [| [k' v'] rest IH]; simpl.
  - by rewrite String.eqb_refl.
  - destruct (String.compare k k') eqn:Hc; simpl.
    + by rewrite String.eqb_refl.
    + by rewrite String.eqb_refl.
    + destruct (String.eqb k k') eqn:He; [| done].
      apply String.eqb_eq in He. subst k'.
      pose proof (String.compare_antisym k k) as Ha.
      rewrite Hc in Ha. discriminate.
Qed.

Lemma obj_find_set_ne k k' v kvs :
  k <> k' -> obj_find k' (obj_set k v kvs) = obj_find k' kvs.
Proof.
  intros Hne. induction kvs as [| [k0 v0] rest IH]; simpl.
  - destruct (String.eqb k' k) eqn:He; [| done].
    apply String.eqb_eq in He. congruence.
  - destruct (String.compare k k0) eqn:Hc; simpl.
    + apply String.compare_eq_iff in Hc. subst k0.
      destruct (String.eqb k' k) eqn:He; [| done].
      apply String.eqb_eq in He. congruence.
    + destruct (String.eqb k' k) eqn:He; [| done].
      apply String.eqb_eq in He. congruence.
    + by rewrite IH.
Qed.

(** *** Lifecycle *)

Lemma init_twice F heap streams options extr srv :
  is_valid srv = true ->
  init F heap streams options extr srv
  = (Throw (std_exception ("device server '" +:+ _topic_root srv
                           +:+ "' is already initialized")), srv).
Proof. unfold init, bind, get. simpl. by intros ->. Qed.

Lemma broadcast_twice F device_info srv b :
  _broadcaster srv = Some b ->
  broadcast F device_info srv
  = (Throw (std_exception "device server was already broadcast"), srv).
Proof. unfold broadcast, bind, get. simpl. by intros ->. Qed.

Lemma broadcast_before_init F device_info srv :
  _broadcaster srv = None ->
  _notification_server srv = None ->
  broadcast F device_info srv
  = (Throw (std_exception "not initialized"), srv).
Proof. unfold broadcast, bind, get. simpl. by intros -> ->. Qed.

Lemma broadcast_topic_root_mismatch F device_info srv ns :
  _broadcaster srv = None ->
  _notification_server srv = Some ns ->
  topic_root device_info <> _topic_root srv ->
  broadcast F device_info srv
  = (Throw (std_exception "device-info topic root does not match"), srv).
Proof.
  unfold broadcast, bind, get. simpl. intros -> -> Hne.
  by rewrite (proj2 (String.eqb_neq _ _) Hne).
Qed.

Lemma publish_metadata_before_init F md root :
  publish_metadata F md (new_dds_device_server root)
  = (Throw (std_exception ("device '" +:+ root
                           +:+ "' has no stream with enabled metadata")),
     new_dds_device_server root).
Proof. reflexivity. Qed.

(** C5: of the lifecycle misuses, [publish_notification] on a server
    that was never initialised does not raise: it dereferences the
    absent notification channel, which no guard precedes, and its
    behaviour is undefined.  (Double init, double broadcast, broadcast
    before init and a mismatched topic root do raise: [init_twice],
    [broadcast_twice], [broadcast_before_init],
    [broadcast_topic_root_mismatch].) *)
Theorem publish_notification_before_init F notification root :
  publish_notification F notification (new_dds_device_server root)
  = (Undefined, new_dds_device_server root).
Proof. reflexivity. Qed.

(** C10: when [broadcast_disconnect] returns on a server that has
    broadcast, the broadcaster is released; [broadcast] with a matching
    [device_info], which raised "already broadcast" before the
    disconnect, then creates a new broadcaster. *)
Theorem broadcast_after_disconnect F F' ack_timeout device_info srv b ns :
  _broadcaster srv = Some b ->
  _notification_server srv = Some ns ->
  topic_root device_info = _topic_root srv ->
  F (at_broadcast_disconnect ack_timeout) = None ->
  F' at_make_device_broadcaster = None ->
  broadcast F' device_info srv
  = (Throw (std_exception "device server was already broadcast"), srv)
  /\ broadcast_disconnect F ack_timeout srv
     = (Ok tt, with_broadcaster None srv)
  /\ _broadcaster (with_broadcaster None srv) = None
  /\ broadcast F' device_info (with_broadcaster None srv)
     = (Ok tt, with_broadcaster (Some {| broadcast_info := device_info |})
                 (with_broadcaster None srv)).
Proof.
  intros Hb Hns Hroot HF HF'. split; [by eapply broadcast_twice |].
  split.
  - unfold broadcast_disconnect, bind, get. simpl. rewrite Hb.
    unfold extern. by rewrite HF.
  - split; [done |].
    unfold broadcast, bind, get. simpl. rewrite Hns, Hroot.
    rewrite String.eqb_refl. simpl. unfold extern. by rewrite HF'.
Qed.

(** Without a broadcaster, [broadcast_disconnect] does nothing. *)
Lemma broadcast_disconnect_never_broadcast F ack_timeout srv :
  _broadcaster srv = None ->
  broadcast_disconnect F ack_timeout srv = (Ok tt, srv).
Proof. unfold broadcast_disconnect, bind, get. simpl. by intros ->. Qed.

(** *** Discovery *)

Lemma handed_app msgs1 msgs2 ns :
  handed msgs2 (handed msgs1 ns) = handed (msgs1 ++ msgs2) ns.
Proof. unfold handed. simpl. by rewrite <- app_assoc. Qed.

Lemma add_discovery_notification_Ok F msg ns u ns' :
  add_discovery_notification F msg ns = (Ok u, ns') ->
  ns' = handed [msg] ns.
Proof.
  unfold add_discovery_notification. intros H. run_inv H.
  apply extern_Ok in Hstep as [_ ->]. by inversion H.
Qed.

Lemma on_discovery_device_header_Ok F heap n options extr ns u ns' :
  on_discovery_device_header F heap n options extr ns = (Ok u, ns') ->
  ns' = handed [ device_header_message n extr;
                 device_options_message heap options ] ns.
Proof.
  unfold on_discovery_device_header. intros H. run_inv H.
  apply add_discovery_notification_Ok in Hstep, H. subst.
  by rewrite handed_app.
Qed.

Lemma on_discovery_stream_header_Ok F heap stream ns u ns' :
  on_discovery_stream_header F heap stream ns = (Ok u, ns') ->
  ns' = handed [ stream_header_message stream;
                 stream_options_message heap stream ] ns.
Proof.
  unfold on_discovery_stream_header. intros H. run_inv H.
  apply add_discovery_notification_Ok in Hstep, H. subst.
  by rewrite handed_app.
Qed.

(** The first message of a pair is in the channel before the second is
    handed over: a fault on the second leaves the first cached. *)
Lemma device_header_handed_first F heap n options extr ns e :
  F (at_add_discovery_notification (device_header_message n extr)) = None ->
  F (at_add_discovery_notification (device_options_message heap options))
  = Some e ->
  on_discovery_device_header F heap n options extr ns
  = (Throw e, handed [device_header_message n extr] ns).
Proof.
  intros H1 H2. unfold on_discovery_device_header,
    add_discovery_notification, bind, extern, modify.
  by rewrite H1, H2.
Qed.

Lemma stream_header_handed_first F heap stream ns e :
  F (at_add_discovery_notification (stream_header_message stream)) = None ->
  F (at_add_discovery_notification (stream_options_message heap stream))
  = Some e ->
  on_discovery_stream_header F heap stream ns
  = (Throw e, handed [stream_header_message stream] ns).
Proof.
  intros H1 H2. unfold on_discovery_stream_header,
    add_discovery_notification, bind, extern, modify.
  by rewrite H1, H2.
Qed.

Lemma deref_notification_server_Ok {A} (m : M dds_notification_server A)
    s a s' :
  deref_notification_server m s = (Ok a, s') ->
  exists ns ns',
    _notification_server s = Some ns /\ m ns = (Ok a, ns')
    /\ s' = with_notification_server (Some ns') s.
Proof.
  unfold deref_notification_server.
  destruct (_notification_server s) as [ns |]; [| discriminate].
  destruct (m ns) as [r ns'] eqn:Hm. intros H. inversion H. subst.
  by exists ns, ns'.
Qed.

(** One step of a successful run through the notification channel. *)
Ltac deref_step :=
  match goal with
  | H : deref_notification_server _ _ = (Ok _, _) |- _ =>
      let Hns := fresh "Hns" in let Hrun := fresh "Hrun" in
      apply deref_notification_server_Ok in H as (? & ? & Hns & Hrun & ?);
      simpl in Hns; subst
  end.

Lemma init_stream_Ok F heap stream s u s' ns :
  _notification_server s = Some ns ->
  init_stream F heap stream s = (Ok u, s') ->
  _notification_server s'
  = Some (handed [ stream_header_message stream;
                   stream_options_message heap stream ] ns).
Proof.
  intros Hns H. unfold init_stream in H.
  repeat first [run_step | deref_step].
  rewrite Hns in *. simplify_eq.
  match goal with
  | H : on_discovery_stream_header _ _ _ _ = _ |- _ =>
      apply on_discovery_stream_header_Ok in H; subst
  end.
  simpl in H.
  destruct (metadata_enabled stream); [| by repeat run_step].
  match type of H with
  | context [_metadata_writer ?x] => destruct (_metadata_writer x)
  end; by repeat run_step.
Qed.

Lemma init_streams_Ok F heap streams : forall s u s' ns,
  _notification_server s = Some ns ->
  for_each (init_stream F heap) streams s = (Ok u, s') ->
  _notification_server s' = Some (handed (stream_messages heap streams) ns).
Proof.
  induction streams as [| stream rest IH]; intros s u s' ns Hns H.
  - simpl in H. run_step. rewrite Hns. f_equal. unfold handed. simpl.
    rewrite app_nil_r. by destruct ns.
  - simpl in H. run_step.
    match goal with
    | H : init_stream _ _ _ _ = _ |- _ =>
        eapply init_stream_Ok in H; [| done]; rename H into Hs
    end.
    eapply IH in H; [| done]. rewrite H. by rewrite handed_app.
Qed.

Lemma init_Ok_try F heap streams options extr srv u srv' :
  init F heap streams options extr srv = (Ok u, srv') ->
  is_valid srv = false
  /\ init_try F heap streams options extr srv = (Ok u, srv').
Proof.
  unfold init, bind, get. simpl.
  destruct (is_valid srv); [discriminate |]. intros H. split; [done |].
  unfold try_catch in H.
  destruct (init_try F heap streams options extr srv) as [[a | e |] s1];
    [done | discriminate | done].
Qed.

(** [init] succeeds when no call into the transport fails. *)
Lemma init_stream_no_faults F heap stream s ns :
  (forall x, F x = None) ->
  _notification_server s = Some ns ->
  exists s', init_stream F heap stream s = (Ok tt, s')
             /\ is_Some (_notification_server s').
Proof.
  intros HF Hns.
  unfold init_stream, bind, gets, extern, modify, deref_notification_server,
    on_discovery_stream_header, add_discovery_notification, bind, extern,
    modify.
  rewrite ?HF. simpl. rewrite Hns. rewrite ?HF. simpl.
  destruct (metadata_enabled stream); [| by eauto].
  destruct (_metadata_writer s); [by eauto |].
  rewrite ?HF. by eauto.
Qed.

Lemma init_streams_no_faults F heap streams : forall s ns,
  (forall x, F x = None) ->
  _notification_server s = Some ns ->
  exists s', for_each (init_stream F heap) streams s = (Ok tt, s')
             /\ is_Some (_notification_server s').
Proof.
  induction streams as [| stream rest IH]; intros s ns HF Hns.
  - exists s. split; [done |]. by rewrite Hns.
  - destruct (init_stream_no_faults F heap stream s ns HF Hns)
      as (s1 & Hrun & [ns1 Hns1]).
    destruct (IH s1 ns1 HF Hns1) as (s2 & Hrest & Hs2).
    exists s2. split; [| done]. simpl. by rewrite (bind_run_Ok _ _ _ _ _ Hrun).
Qed.

Lemma init_no_faults_succeeds F heap streams options extr srv :
  (forall x, F x = None) ->
  is_valid srv = false ->
  exists srv', init F heap streams options extr srv = (Ok tt, srv').
Proof.
  intros HF Hv. unfold init, bind at 1, get. simpl. rewrite Hv.
  unfold init_try.
  destruct (init_streams_no_faults F heap streams
    (with_notification_server
       (Some (handed [ device_header_message (length streams) extr;
                       device_options_message heap options ]
                (new_notification_server
                   (_topic_root srv +:+ NOTIFICATION_TOPIC_NAME))))
       (with_options options (with_stream_name_to_server ∅
          (with_notification_server
             (Some (new_notification_server
                      (_topic_root srv +:+ NOTIFICATION_TOPIC_NAME))) srv))))
    _ HF eq_refl) as (s1 & Hrun & [ns1 Hns1]).
  eexists. apply try_catch_Ok.
  unfold bind, gets, extern, modify, deref_notification_server,
    on_discovery_device_header, add_discovery_notification,
    notification_server_run, bind, extern, modify.
  rewrite ?HF. simpl. rewrite ?HF. simpl.
  unfold handed in Hrun. simpl in Hrun. rewrite Hrun.
  rewrite Hns1. rewrite ?HF. simpl. reflexivity.
Qed.

(** The rollback of [init]: when the [try] block throws, the notification
    channel, the stream map and the control reader are reset, whatever
    else the block wrote stays, and the exception is thrown again. *)
Lemma init_rollback F heap streams options extr srv e s1 :
  is_valid srv = false ->
  init_try F heap streams options extr srv = (Throw e, s1) ->
  init F heap streams options extr srv
  = (Throw e,
     with_control_reader None
       (with_stream_name_to_server ∅ (with_notification_server None s1))).
Proof.
  intros Hv H. unfold init, bind at 1, get. simpl. rewrite Hv.
  by rewrite (try_catch_Throw _ _ _ _ _ H).
Qed.

(** *** Replies *)

Lemma json_set_field k v j j' :
  json_set k v j = Ok j' -> field k j' = Some v.
Proof.
  destruct j; simpl; intros H; simplify_eq; simpl.
  - by rewrite String.eqb_refl.
  - apply obj_find_set_eq.
Qed.

(** *** set-option *)

(** Whenever the set-option handler throws, it has changed neither the
    option objects nor the reply. *)
Lemma handle_set_option_throws_unchanged srv j reply w e reply' w' :
  is_object reply ->
  handle_set_option srv j (reply, w) = (Throw e, (reply', w')) ->
  heap w' = heap w /\ reply' = reply.
Proof.
  intros [kvs ->]. unfold handle_set_option, bind, lift, gets, DDS_THROW,
    throw, on_world, on_hw, zoom, set_option_value, modify, on_reply, ret.
  simpl. intros H.
  repeat (case_match; simplify_eq/=); done.
Qed.


(** C3: on a set-option request whose option resolves, the set-value
    callback, when there is one, is called with the option and the new
    value while the option still holds its old value; the option is
    updated only when the callback returns, and then the reply carries
    the value; when the callback throws, no option object has changed
    and the exception is the handler's.  (Whatever makes the handler
    throw, the option objects are unchanged:
    [handle_set_option_throws_unchanged].) *)
Theorem set_option_callback_before_update
    srv j reply reply' w option_name stream_name opt value_j value :
  json_at option_name_key j = Ok (JStr option_name) ->
  get_ex "" (nested stream_name_key j) = Ok stream_name ->
  find_option srv (heap w) option_name stream_name = Some opt ->
  json_at value_key j = Ok value_j ->
  json_get_float value_j = Ok value ->
  json_set value_key (JFloat value) reply = Ok reply' ->
  field value_key reply' = Some (JFloat value)
  /\ handle_set_option srv j (reply, w)
     = match _set_option_callback srv with
       | None =>
           (Ok tt,
            (reply', {| heap := <[opt := set_value value (heap w !!! opt)]>
                                  (heap w);
                        hw := hw w |}))
       | Some callback =>
           match callback (heap w) opt value (hw w) with
           | (Ok _, hw') =>
               (Ok tt,
                (reply',
                 {| heap := <[opt := set_value value (heap w !!! opt)]>
                              (heap w);
                    hw := hw' |}))
           | (Throw e, hw') =>
               (Throw e, (reply, {| heap := heap w; hw := hw' |}))
           | (Undefined, hw') =>
               (Undefined, (reply, {| heap := heap w; hw := hw' |}))
           end
       end.
Proof.
  intros Hname Hstream Hfind Hat Hget Hset.
  split; [by eapply json_set_field |].
  unfold handle_set_option, bind, lift, gets. simpl.
  rewrite Hname. simpl. rewrite Hstream. rewrite Hfind.
  rewrite Hat, Hget.
  destruct (_set_option_callback srv) as [callback |].
  - unfold on_world, zoom, on_hw, zoom. simpl.
    destruct (callback (heap w) opt value (hw w)) as [[[] | e |] hw'];
      simpl; [| done | done].
    unfold on_reply. simpl. by rewrite Hset.
  - unfold ret, on_world, zoom, set_option_value, modify, on_reply. simpl.
    rewrite Hset. by destruct w.
Qed.

Lemma handle_set_option_not_found srv j reply w option_name stream_name :
  json_at option_name_key j = Ok (JStr option_name) ->
  get_ex "" (nested stream_name_key j) = Ok stream_name ->
  find_option srv (heap w) option_name stream_name = None ->
  handle_set_option srv j (reply, w)
  = (Throw (std_exception (not_found_text stream_name option_name)),
     (reply, w)).
Proof.
  intros Hname Hstream Hfind.
  unfold handle_set_option, bind, lift, gets. simpl.
  rewrite Hname. simpl. rewrite Hstream. by rewrite Hfind.
Qed.

(** C8: a set-option request whose option does not resolve in its scope
    makes the handler throw without changing any option object, and the
    task's reply carries status error and an explanation that names the
    scope, the word device or the stream name in single quotes, and the
    option name. *)
Theorem set_option_unknown_option
    srv j sample w option_name stream_name :
  json_at id_key j = Ok (JStr id_set_option) ->
  json_at option_name_key j = Ok (JStr option_name) ->
  get_ex "" (nested stream_name_key j) = Ok stream_name ->
  find_option srv (heap w) option_name stream_name = None ->
  exists reply,
    control_reply srv j sample (JNull, w) = (Ok tt, (reply, w))
    /\ field status_key reply = Some (JStr "error")
    /\ field explanation_key reply
       = Some (JStr ((if String.eqb stream_name "" then "device"
                      else "'" +:+ stream_name +:+ "'")
                     +:+ " option '" +:+ option_name +:+ "' not found"))
    /\ field value_key reply = None.
Proof.
  intros Hid Hname Hstream Hfind.
  unfold control_reply, control_try, try_catch, bind, lift, on_reply.
  simpl. rewrite Hid. simpl.
  unfold handle_control_message. simpl.
  rewrite (handle_set_option_not_found _ _ _ _ _ _ Hname Hstream Hfind).
  unfold control_catch, bind, on_reply. simpl.
  eexists. split; [reflexivity |]. simpl.
  repeat split.
Qed.

(** *** The reply stays an object *)

Lemma keeps_bind {A B} (m : M (json * world) A) (k : A -> M (json * world) B) :
  keeps_object m -> (forall a, keeps_object (k a)) -> keeps_object (bind m k).
Proof.
  intros Hm Hk s Hs. unfold bind. specialize (Hm s Hs).
  destruct (m s) as [[a | e |] s1]; simpl in Hm; [| done | done].
  by apply Hk.
Qed.

Lemma keeps_ret {A} (a : A) : keeps_object (ret a).
Proof. by intros s Hs. Qed.

Lemma keeps_throw {A} e : keeps_object (throw e : M _ A).
Proof. by intros s Hs. Qed.

Lemma keeps_lift {A} (o : outcome A) : keeps_object (lift o).
Proof. by intros s Hs. Qed.

Lemma keeps_gets {A} (f : json * world -> A) : keeps_object (gets f).
Proof. by intros s Hs. Qed.

Lemma keeps_on_world {A} (m : M world A) : keeps_object (on_world m).
Proof.
  intros s Hs. unfold on_world, zoom. by destruct (m s.2).
Qed.

Lemma keeps_on_reply_set k v : keeps_object (on_reply (json_set k v)).
Proof.
  intros [reply w] [kvs Hk]. simpl in Hk. subst reply.
  unfold on_reply. simpl. by eexists.
Qed.

Lemma keeps_on_reply_update k f : keeps_object (on_reply (json_update k f)).
Proof.
  intros [reply w] [kvs Hk]. simpl in Hk. subst reply.
  unfold on_reply. simpl. destruct (f _); simpl; by eexists.
Qed.

Lemma keeps_for_each {A} (body : A -> M (json * world) unit) l :
  (forall x, keeps_object (body x)) -> keeps_object (for_each body l).
Proof.
  intros Hbody. induction l as [| x rest IH]; simpl.
  - apply keeps_ret.
  - by apply keeps_bind.
Qed.

Create HintDb keeps.
#[local] Hint Resolve keeps_ret keeps_throw keeps_lift keeps_gets
  keeps_on_world keeps_on_reply_set keeps_on_reply_update : keeps.

Ltac keeps :=
  repeat first
    [ apply keeps_bind; [| intros ?]
    | apply keeps_for_each; intros ?
    | progress auto with keeps ].

Lemma keeps_handle_set_option srv j : keeps_object (handle_set_option srv j).
Proof.
  unfold handle_set_option. keeps.
  destruct (find_option _ _ _ _); [| apply keeps_throw]. keeps.
  destruct (_set_option_callback srv); auto with keeps.
Qed.

Lemma keeps_handle_query_option srv j :
  keeps_object (handle_query_option srv j).
Proof.
  unfold handle_query_option. keeps.
  destruct (nested option_name_key j) as [| | | | | | [| x names] |];
    unfold query_all, query_each, query_all_body, query_each_body; keeps.
  destruct (String.eqb _ ""); [by keeps |].
  destruct (_ !! _); by keeps.
Qed.

Lemma keeps_handle_control_message srv id j :
  control_callback_keeps_object srv ->
  keeps_object (handle_control_message srv id j).
Proof.
  intros Hcb. unfold handle_control_message.
  destruct (String.eqb id id_set_option);
    [apply keeps_handle_set_option |].
  destruct (String.eqb id id_query_option);
    [apply keeps_handle_query_option |].
  destruct (_control_callback srv) as [callback |] eqn:Hc;
    [| apply keeps_throw].
  apply keeps_bind.
  - intros [reply w] Hs. unfold zoom. simpl.
    specialize (Hcb callback id j reply (hw w) Hc Hs).
    by destruct (callback id j (reply, hw w)).
  - intros []; auto with keeps. apply keeps_throw.
Qed.

Lemma keeps_control_try srv j :
  control_callback_keeps_object srv -> keeps_object (control_try srv j).
Proof.
  intros Hcb. unfold control_try. keeps.
  by apply keeps_handle_control_message.
Qed.

(** *** The dispatcher task *)

Lemma control_reply_run srv j sample w :
  control_reply srv j sample (JNull, w)
  = try_catch (control_try srv j) control_catch (reply_shell sample, w).
Proof. reflexivity. Qed.

Lemma control_catch_object e reply w :
  is_object reply ->
  exists reply',
    control_catch e (reply, w) = (Ok tt, (reply', w))
    /\ field status_key reply' = Some (JStr "error")
    /\ field explanation_key reply' = Some (JStr (what e)).
Proof.
  intros [kvs ->]. unfold control_catch, bind, on_reply. simpl.
  eexists. split; [reflexivity |]. simpl. split.
  - rewrite obj_find_set_ne; [| done]. apply obj_find_set_eq.
  - apply obj_find_set_eq.
Qed.

(** The second [try] block of a task: the reply is sent, or the failure
    to send it is dropped. *)
Lemma publish_reply_swallowed F reply srv ns :
  _notification_server srv = Some ns ->
  try_catch (publish_notification F reply) (fun _ => ret tt) srv
  = (Ok tt,
     match F (at_send_notification reply) with
     | Some _ => srv
     | None => with_notification_server (Some (sent reply ns)) srv
     end).
Proof.
  intros Hns.
  unfold try_catch, publish_notification, deref_notification_server,
    send_notification, bind, extern, modify, ret.
  rewrite Hns. destruct (F _); simpl; [| done].
  f_equal. destruct srv. simpl in *. by subst.
Qed.

(** An exception of the first block becomes an error reply. *)
Lemma control_try_caught srv w j sample e reply1 w1 :
  control_callback_keeps_object srv ->
  control_try srv j (reply_shell sample, w) = (Throw e, (reply1, w1)) ->
  exists reply,
    control_reply srv j sample (JNull, w) = (Ok tt, (reply, w1))
    /\ field status_key reply = Some (JStr "error")
    /\ field explanation_key reply = Some (JStr (what e)).
Proof.
  intros Hcb Htry.
  pose proof (keeps_control_try srv j Hcb (reply_shell sample, w)) as Hobj.
  rewrite Htry in Hobj. simpl in Hobj.
  destruct (control_catch_object e reply1 w1) as (reply & Hc & Hst & Hex).
  { apply Hobj. by eexists. }
  exists reply. rewrite control_reply_run.
  by rewrite (try_catch_Throw _ _ _ _ _ Htry).
Qed.

(** The task does not end in a throw. *)
Lemma control_task_no_throw F srv w j sample ns e :
  _notification_server srv = Some ns ->
  control_callback_keeps_object srv ->
  (control_task F j sample (srv, w)).1 <> Throw e.
Proof.
  intros Hns Hcb. unfold control_task. simpl.
  destruct (control_try srv j (reply_shell sample, w))
    as [[[] | e' |] [reply1 w1]] eqn:Htry.
  - rewrite control_reply_run, (try_catch_Ok _ _ _ _ _ Htry).
    by rewrite (publish_reply_swallowed _ _ _ _ Hns).
  - destruct (control_try_caught _ _ _ _ _ _ _ Hcb Htry) as (reply & -> & _).
    by rewrite (publish_reply_swallowed _ _ _ _ Hns).
  - rewrite control_reply_run. unfold try_catch. by rewrite Htry.
Qed.

(** *** query-option *)

Lemma compare_refl (k : string) : String.compare k k = Eq.
Proof.
  pose proof (String.compare_antisym k k) as Ha.
  by destruct (String.compare k k).
Qed.

Lemma obj_set_set k v v' kvs :
  obj_set k v (obj_set k v' kvs) = obj_set k v kvs.
Proof.
  induction kvs as [| [k0 v0] rest IH]; simpl.
  - by rewrite compare_refl.
  - destruct (String.compare k k0) eqn:Hc; simpl.
    + by rewrite compare_refl.
    + by rewrite compare_refl.
    + by rewrite Hc, IH.
Qed.








Lemma query_names_in_order_cons srv stream_name x rest w values w' :
  query_names_in_order srv stream_name (x :: rest) w = (Ok values, w') ->
  exists value w1 values',
    query_option_j srv stream_name x w = (Ok value, w1)
    /\ query_names_in_order srv stream_name rest w1 = (Ok values', w')
    /\ values = value :: values'.
Proof.
  cbn [query_names_in_order]. intros H.
  apply bind_Ok in H as (value & w1 & Hq & H).
  apply bind_Ok in H as (values' & w2 & Hrest & H).
  unfold ret in H. simplify_eq. by exists value, w1, values'.
Qed.

(** The loop over the names, run over a prefix whose queries succeed. *)
Lemma query_each_prefix srv stream_name rest kvs pre :
  forall cur w values w1,
  cur = JNull \/ is_array cur = true ->
  query_names_in_order srv stream_name pre w = (Ok values, w1) ->
  query_each srv stream_name (pre ++ rest)
    (JObj (obj_set value_key cur kvs), w)
  = query_each srv stream_name rest
      (JObj (obj_set value_key (pushed cur values) kvs), w1).
Proof.
  induction pre as [| x pre IH]; intros cur w values w1 Hcur H.
  - simpl in H. unfold ret in H. by simplify_eq.
  - apply query_names_in_order_cons in H
      as (x0 & wa & x2 & Hq & Hrest & ->).
    unfold query_each. cbn [for_each app]. unfold bind at 1.
    unfold query_each_body at 1, bind, on_world, zoom. simpl.
    rewrite Hq. unfold on_reply, json_update. simpl.
    rewrite obj_find_set_eq. simpl.
    assert (json_push_back (JFloat x0) cur
            = Ok (JArr (items cur ++ [JFloat x0]))) as ->.
    { destruct Hcur as [-> | Hcur]; [done |]. by destruct cur. }
    rewrite obj_set_set.
    fold (query_each srv stream_name (pre ++ rest)).
    rewrite (IH (JArr (items cur ++ [JFloat x0])) _ _ _
               (or_intror eq_refl) Hrest).
    do 4 f_equal. unfold pushed. simpl.
    destruct x2; simpl; [done |]. by rewrite <- app_assoc.
Qed.

Lemma query_option_j_cached srv stream_name name w value w' :
  _query_option_callback srv = None ->
  query_option_j srv stream_name (JStr name) w = (Ok value, w') ->
  w' = w
  /\ exists opt, find_option srv (heap w) name stream_name = Some opt
                 /\ value = get_value (heap w !!! opt).
Proof.
  intros Hcb. unfold query_option_j, bind, get.
  destruct (find_option srv (heap w) name stream_name) as [opt |];
    [| discriminate].
  unfold query_option. rewrite Hcb. unfold gets. intros H. simplify_eq.
  split; [done |]. by exists opt.
Qed.

(** Without a query callback the named options are resolved in the
    option objects as they are, and their cached values are read. *)
Lemma query_names_in_order_cached srv stream_name names : forall w values w',
  _query_option_callback srv = None ->
  query_names_in_order srv stream_name (map JStr names) w = (Ok values, w') ->
  w' = w
  /\ Forall2 (fun name value =>
       exists opt, find_option srv (heap w) name stream_name = Some opt
                   /\ value = get_value (heap w !!! opt)) names values.
Proof.
  induction names as [| name rest IH]; intros w values w' Hcb H.
  - simpl in H. unfold ret in H. simplify_eq. by split.
  - cbn [map] in H.
    apply query_names_in_order_cons in H
      as (value & w1 & values' & Hq & Hrest & ->).
    apply (query_option_j_cached _ _ _ _ _ _ Hcb) in Hq as [-> Hopt].
    apply IH in Hrest as [-> Hall]; [| done].
    split; [done |]. by constructor.
Qed.

(** C4, as the code has it: on a query-option request whose option-name
    is a non-empty array of strings, the named options are queried in
    order; when all queries succeed the reply's value is the array of
    their values in the order of the names; when a name does not resolve
    the handler throws an error that names that option, and the reply it
    was given by reference keeps in its value field the values queried
    before that name (null when it is the first name). *)
Theorem query_option_array srv j kvs w stream_name names :
  nested option_name_key j = JArr (map JStr names) ->
  names <> [] ->
  get_ex "" (nested stream_name_key j) = Ok stream_name ->
  obj_find value_key kvs = None ->
  (forall values w',
     query_names_in_order srv stream_name (map JStr names) w
     = (Ok values, w') ->
     handle_query_option srv j (JObj kvs, w)
     = (Ok tt,
        (JObj (obj_set value_key (JArr (map JFloat values)) kvs), w'))
     /\ length values = length names
     /\ (_query_option_callback srv = None ->
         w' = w
         /\ Forall2 (fun name value =>
              exists opt,
                find_option srv (heap w) name stream_name = Some opt
                /\ value = get_value (heap w !!! opt)) names values))
  /\ (forall pre name post values w1,
        names = pre ++ name :: post ->
        query_names_in_order srv stream_name (map JStr pre) w
        = (Ok values, w1) ->
        find_option srv (heap w1) name stream_name = None ->
        handle_query_option srv j (JObj kvs, w)
        = (Throw (std_exception (not_found_text stream_name name)),
           (JObj (obj_set value_key (pushed JNull values) kvs), w1))).
Proof.
  intros Hname Hne Hstream Hfresh.
  assert (Hrun : handle_query_option srv j (JObj kvs, w)
                 = query_each srv stream_name (map JStr names)
                     (JObj (obj_set value_key JNull kvs), w)).
  { unfold handle_query_option, bind at 1, lift. rewrite Hstream, Hname.
    destruct names as [| name rest]; [done |]. simpl.
    unfold bind at 1, on_reply, json_update. simpl. by rewrite Hfresh. }
  split.
  - intros values w' Hq. split; [| split].
    + rewrite Hrun.
      rewrite <- (app_nil_r (map JStr names)).
      rewrite (query_each_prefix _ _ _ _ _ _ _ _ _ (or_introl eq_refl) Hq).
      unfold query_each. simpl. unfold ret. do 4 f_equal.
      destruct names as [| name rest]; [done |]. cbn [map] in Hq.
      by apply query_names_in_order_cons in Hq as (? & ? & ? & _ & _ & ->).
    + clear -Hq. revert w values w' Hq.
      induction names as [| name rest IH]; intros w values w' Hq.
      * simpl in Hq. unfold ret in Hq. by simplify_eq.
      * cbn [map] in Hq.
        apply query_names_in_order_cons in Hq
          as (value & w1 & values' & _ & Hrest & ->).
        simpl. f_equal. by eapply IH.
    + intros Hcb. by eapply query_names_in_order_cached.
  - intros pre name post values w1 -> Hq Hfind.
    rewrite Hrun, map_app. simpl.
    rewrite (query_each_prefix _ _ _ _ _ _ _ _ _ (or_introl eq_refl) Hq).
    unfold query_each. cbn [for_each]. unfold bind at 1.
    unfold query_each_body, bind, on_world, zoom. simpl.
    unfold bind, get. by rewrite Hfind.
Qed.

(** *** The drain loop *)

(** When every valid message parses, the reader is emptied and the tasks
    handed to the dispatcher are those of the valid messages, in the
    order of delivery. *)
Lemma take_all_in_order messages : forall tasks,
  Forall (fun data => is_valid_msg data = true ->
                      exists j, json_data data = Ok j) messages ->
  take_all messages (messages, tasks)
  = (Ok tt, ([], tasks ++ omap task_of messages)).
Proof.
  induction messages as [| data rest IH]; intros tasks Hall.
  - simpl. unfold ret. by rewrite app_nil_r.
  - apply Forall_cons in Hall as [Hdata Hrest].
    cbn [take_all omap list_omap]. unfold bind at 1, modify, task_of. simpl.
    destruct (is_valid_msg data).
    + destruct (Hdata eq_refl) as [j Hj]. rewrite Hj.
      unfold bind, lift. simpl.
      rewrite (IH _ Hrest). by rewrite <- app_assoc.
    + by rewrite (IH _ Hrest).
Qed.

(** X20: when every valid message held by the control reader parses,
    [on_control_message_received] returns, leaves the reader empty, and
    hands the dispatcher one task for each valid message, in the order
    of delivery, after the tasks already queued; invalid messages are
    taken and dropped. *)
Lemma on_control_message_received_in_order srv reader tasks :
  _control_reader srv = Some reader ->
  Forall (fun data => is_valid_msg data = true ->
                      exists j, json_data data = Ok j) (pending reader) ->
  on_control_message_received (srv, tasks)
  = (Ok tt,
     (with_control_reader
        (Some {| reader_topic := reader_topic reader;
                 reader_qos := reader_qos reader;
                 data_available_callback := data_available_callback reader;
                 pending := [] |}) srv,
      tasks ++ omap task_of (pending reader))).
Proof.
  intros Hr Hall. unfold on_control_message_received. simpl.
  by rewrite Hr, (take_all_in_order _ _ Hall).
Qed.

(** *** The task returns *)

Lemma defined_bind {S A B} (m : M S A) (k : A -> M S B) :
  defined m -> (forall a, defined (k a)) -> defined (bind m k).
Proof.
  intros Hm Hk s. unfold bind. specialize (Hm s).
  destruct (m s) as [[a | e |] s1]; simpl in *; [apply Hk | done | done].
Qed.

Lemma defined_ret {S A} (a : A) : defined (ret a : M S A).
Proof. by intros s. Qed.

Lemma defined_throw {S A} e : defined (throw e : M S A).
Proof. by intros s. Qed.

Lemma defined_gets {S A} (f : S -> A) : defined (gets f).
Proof. by intros s. Qed.

Lemma defined_get {S} : defined (get : M S S).
Proof. by intros s. Qed.

Lemma defined_modify {S} (f : S -> S) : defined (modify f).
Proof. by intros s. Qed.

Lemma defined_lift {S A} (o : outcome A) :
  o <> Undefined -> defined (lift o : M S A).
Proof. by intros Ho s. Qed.

Lemma defined_zoom {S T A} (proj : S -> T) upd (m : M T A) :
  defined m -> defined (zoom proj upd m).
Proof.
  intros Hm s. unfold zoom. specialize (Hm (proj s)).
  by destruct (m (proj s)).
Qed.

Lemma defined_on_reply f :
  (forall j, f j <> Undefined) -> defined (on_reply f).
Proof.
  intros Hf s. unfold on_reply. specialize (Hf s.1). by destruct (f s.1).
Qed.

Lemma defined_for_each {S A} (body : A -> M S unit) l :
  (forall x, defined (body x)) -> defined (for_each body l).
Proof.
  intros Hbody. induction l as [| x rest IH]; simpl.
  - apply defined_ret.
  - by apply defined_bind.
Qed.

Lemma defined_try_catch {S A} (m : M S A) h :
  defined m -> (forall e, defined (h e)) -> defined (try_catch m h).
Proof.
  intros Hm Hh s. unfold try_catch. specialize (Hm s).
  destruct (m s) as [[a | e |] s1]; simpl in *; [done | apply Hh | done].
Qed.

Lemma json_at_defined k j : json_at k j <> Undefined.
Proof. destruct j; simpl; try done. by destruct (obj_find k kvs). Qed.

Lemma string_ref_defined j : string_ref j <> Undefined.
Proof. by destruct j. Qed.

Lemma get_ex_defined d j : get_ex d j <> Undefined.
Proof. by destruct j. Qed.

Lemma json_get_float_defined j : json_get_float j <> Undefined.
Proof. by destruct j. Qed.

Lemma json_set_defined k v j : json_set k v j <> Undefined.
Proof. by destruct j. Qed.

Lemma json_push_back_defined v j : json_push_back v j <> Undefined.
Proof. by destruct j. Qed.

Lemma json_update_defined k f j :
  (forall x, f x <> Undefined) -> json_update k f j <> Undefined.
Proof.
  intros Hf. destruct j; simpl; try done.
  - specialize (Hf JNull). by destruct (f JNull).
  - specialize (Hf (default JNull (obj_find k kvs))). by destruct (f _).
Qed.

Create HintDb defined.
#[local] Hint Resolve defined_ret defined_throw defined_gets defined_get
  defined_modify defined_lift defined_zoom defined_on_reply
  json_at_defined string_ref_defined get_ex_defined json_get_float_defined
  json_set_defined json_push_back_defined json_update_defined : defined.

Ltac defined :=
  repeat first
    [ apply defined_bind; [| intros ?]
    | apply defined_for_each; intros ?
    | progress auto with defined ].

Lemma defined_query_option srv opt :
  callbacks_defined srv -> defined (query_option srv opt).
Proof.
  intros (_ & Hq & _). unfold query_option.
  destruct (_query_option_callback srv) as [callback |];
    [| apply defined_gets].
  unfold set_option_value. defined.
  intros w. apply (defined_zoom hw _ _ (Hq _ _ _ eq_refl)).
Qed.

Lemma defined_query_option_j srv stream_name x :
  callbacks_defined srv -> defined (query_option_j srv stream_name x).
Proof.
  intros Hcb. unfold query_option_j, DDS_THROW.
  destruct x; auto with defined. defined.
  destruct (find_option _ _ _ _); [by apply defined_query_option |].
  apply defined_throw.
Qed.

Lemma defined_handle_set_option srv j :
  callbacks_defined srv -> defined (handle_set_option srv j).
Proof.
  intros (Hs & _). unfold handle_set_option, DDS_THROW. defined.
  destruct (find_option _ _ _ _); [| apply defined_throw].
  unfold on_world, set_option_value. defined.
  destruct (_set_option_callback srv) as [callback |];
    [| apply defined_ret].
  apply defined_zoom. intros w.
  apply (defined_zoom hw _ _ (Hs _ _ _ _ eq_refl)).
Qed.

Lemma defined_handle_query_option srv j :
  callbacks_defined srv -> defined (handle_query_option srv j).
Proof.
  intros Hcb. unfold handle_query_option. defined.
  pose proof (defined_query_option srv) as Hq.
  pose proof (defined_query_option_j srv) as Hqj.
  destruct (nested option_name_key j) as [| | | | | | [| x names] |];
    unfold query_all, query_each, query_all_body, query_each_body, on_world;
    defined; auto with defined.
  destruct (String.eqb _ ""); [by defined; auto with defined |].
  destruct (_ !! _); by defined; auto with defined.
Qed.

Lemma defined_handle_control_message srv id j :
  callbacks_defined srv -> defined (handle_control_message srv id j).
Proof.
  intros Hcb. unfold handle_control_message, DDS_THROW.
  destruct (String.eqb id id_set_option);
    [by apply defined_handle_set_option |].
  destruct (String.eqb id id_query_option);
    [by apply defined_handle_query_option |].
  destruct Hcb as (_ & _ & Hc).
  destruct (_control_callback srv) as [callback |];
    [| apply defined_throw].
  apply defined_bind; [by apply defined_zoom, (Hc _ _ _ eq_refl) |].
  intros []; auto with defined.
Qed.

Lemma defined_control_reply srv j sample :
  callbacks_defined srv -> defined (control_reply srv j sample).
Proof.
  intros Hcb. unfold control_reply. defined.
  apply defined_try_catch.
  - unfold control_try. defined. by apply defined_handle_control_message.
  - intros e. unfold control_catch. defined.
Qed.

(** On an initialised server whose callbacks behave, the task of a
    control message returns. *)
Lemma control_task_returns F srv w j sample ns :
  _notification_server srv = Some ns ->
  control_callback_keeps_object srv ->
  callbacks_defined srv ->
  exists srv' w', control_task F j sample (srv, w) = (Ok tt, (srv', w')).
Proof.
  intros Hns Hobj Hcb.
  pose proof (fun e => control_task_no_throw F srv w j sample ns e Hns Hobj)
    as Hno.
  pose proof (defined_control_reply srv j sample Hcb (JNull, w)) as Hdef.
  unfold control_task in *. simpl in *.
  destruct (control_reply srv j sample (JNull, w)) as [[[] | e |] [reply w1]];
    simpl in *.
  - rewrite (publish_reply_swallowed _ _ _ _ Hns). by eauto.
  - by destruct (Hno e).
  - done.
Qed.

(** C9: on an initialised server whose custom control callback, if
    there is one, leaves the reply an object, no exception escapes the
    task of a control message ([exception] is what derives from
    [std::exception]); an exception thrown in its first block, by the
    extraction of the id or by a handler, becomes a reply with status
    error whose explanation is the text of the exception; a failure to
    publish the reply is dropped; and when the callbacks have defined
    behaviour the task returns. *)
Theorem control_task_no_escape F srv w j sample ns :
  _notification_server srv = Some ns ->
  control_callback_keeps_object srv ->
  (forall e, (control_task F j sample (srv, w)).1 <> Throw e)
  /\ (forall e reply1 w1,
        control_try srv j (reply_shell sample, w) = (Throw e, (reply1, w1)) ->
        exists reply,
          control_reply srv j sample (JNull, w) = (Ok tt, (reply, w1))
          /\ field status_key reply = Some (JStr "error")
          /\ field explanation_key reply = Some (JStr (what e)))
  /\ (forall e reply w1,
        control_reply srv j sample (JNull, w) = (Ok tt, (reply, w1)) ->
        F (at_send_notification reply) = Some e ->
        control_task F j sample (srv, w) = (Ok tt, (srv, w1)))
  /\ (callbacks_defined srv ->
      exists srv' w',
        control_task F j sample (srv, w) = (Ok tt, (srv', w'))).
Proof.
  intros Hns Hcb. split; [| split; [| split]].
  - intros e. by eapply control_task_no_throw.
  - intros e reply1 w1. by apply control_try_caught.
  - intros e reply w1 Hreply HF. unfold control_task. simpl.
    rewrite Hreply, (publish_reply_swallowed _ _ _ _ Hns). by rewrite HF.
  - intros Hdef. by eapply control_task_returns.
Qed.

(** *** Topic names *)

Lemma replace_slashes_counted (name : string) : forall n : Z,
  (1 <= n)%Z -> replace_slashes n name = underscores name.
Proof.
  induction name as [| ch rest IH]; intros n Hn; simpl; [done |].
  destruct (Ascii.eqb ch "/"); [| by rewrite IH].
  rewrite (proj2 (Z.ltb_lt 1 (n + 1))) by lia.
  rewrite IH by lia. done.
Qed.

Lemma replace_slashes_first (name : string) :
  replace_slashes 0 name = keep_first_slash name.
Proof.
  induction name as [| ch rest IH]; simpl; [done |].
  destruct (Ascii.eqb ch "/"); [| by rewrite IH].
  simpl. by rewrite replace_slashes_counted.
Qed.

Lemma underscores_length (name : string) :
  String.length (underscores name) = String.length name.
Proof. induction name as [| ch rest IH]; simpl; [done | by rewrite IH]. Qed.

Lemma keep_first_slash_length (name : string) :
  String.length (keep_first_slash name) = String.length name.
Proof.
  induction name as [| ch rest IH]; simpl; [done |].
  destruct (Ascii.eqb ch "/"); simpl; [by rewrite underscores_length |].
  by rewrite IH.
Qed.

Lemma underscores_app (a b : string) :
  underscores (a +:+ b) = underscores a +:+ underscores b.
Proof. induction a as [| ch rest IH]; simpl; [done | by rewrite IH]. Qed.

Lemma keep_first_slash_app (a b : string) :
  keep_first_slash (a +:+ b)
  = if has_slash a then keep_first_slash a +:+ underscores b
    else a +:+ keep_first_slash b.
Proof.
  induction a as [| ch rest IH]; simpl; [done |].
  destruct (Ascii.eqb ch "/"); simpl.
  - by rewrite underscores_app.
  - rewrite IH. by destruct (has_slash rest).
Qed.

(** X1: [ros_friendly_topic_name] puts rt/ in front of the name, keeps
    the name up to and including its first slash, and replaces every
    later slash by an underscore; the length grows by three. *)
Theorem ros_friendly_topic_name_spec (name : string) :
  ros_friendly_topic_name name = "rt/" +:+ keep_first_slash name
  /\ String.length (ros_friendly_topic_name name) = 3 + String.length name.
Proof.
  unfold ros_friendly_topic_name. rewrite replace_slashes_first.
  split; [done |].
  change (String.length ("rt/" +:+ keep_first_slash name))
    with (3 + String.length (keep_first_slash name)).
  by rewrite keep_first_slash_length.
Qed.

(** The name [init] gives [ros_friendly_topic_name] for a stream. *)
Lemma ros_friendly_topic_name_under_root (root name : string) :
  ros_friendly_topic_name (root +:+ "/" +:+ name) = stream_topic root name.
Proof.
  unfold ros_friendly_topic_name, stream_topic.
  rewrite replace_slashes_first, keep_first_slash_app.
  by destruct (has_slash root).
Qed.

(** *** Option lookup *)

Lemma find_by_name_Some heap option_name opts opt :
  find_by_name heap option_name opts = Some opt
  <-> exists pre post,
        opts = pre ++ opt :: post
        /\ get_name (heap !!! opt) = option_name
        /\ Forall (fun o => get_name (heap !!! o) <> option_name) pre.
Proof.
  split.
  - induction opts as [| o rest IH]; simpl; [done |].
    destruct (String.eqb (get_name (heap !!! o)) option_name) eqn:He.
    + intros [= ->]. apply String.eqb_eq in He. by exists [], rest.
    + intros H. apply IH in H as (pre & post & -> & Hn & Hpre).
      apply String.eqb_neq in He. exists (o :: pre), post.
      split; [done |]. split; [done |]. by constructor.
  - intros (pre & post & -> & Hn & Hpre).
    induction Hpre as [| o pre Ho Hpre IH]; simpl.
    + by rewrite (proj2 (String.eqb_eq _ _) Hn).
    + by rewrite (proj2 (String.eqb_neq _ _) Ho).
Qed.

Lemma find_by_name_None heap option_name opts :
  find_by_name heap option_name opts = None
  <-> Forall (fun o => get_name (heap !!! o) <> option_name) opts.
Proof.
  induction opts as [| o rest IH]; simpl; [by split |].
  destruct (String.eqb (get_name (heap !!! o)) option_name) eqn:He.
  - apply String.eqb_eq in He. split; [done |].
    intros H. by apply Forall_cons in H as [H _].
  - apply String.eqb_neq in He. rewrite IH. split.
    + by constructor.
    + intros H. by apply Forall_cons in H as [_ H].
Qed.

Lemma find_option_scope srv heap option_name stream_name :
  find_option srv heap option_name stream_name
  = find_by_name heap option_name (scope_options srv stream_name).
Proof.
  unfold find_option, scope_options.
  destruct (String.eqb stream_name ""); [done |].
  by destruct (_stream_name_to_server srv !! stream_name).
Qed.

(** X3: [find_option] returns the first option of the scope that has the
    name, and nothing exactly when no option of the scope has it; the
    scope is the device's list for the empty stream name, the named
    stream's list otherwise, and empty when there is no such stream (so
    the options of a stream registered under the empty name are never
    found). *)
Theorem find_option_first_match srv heap option_name stream_name :
  (forall opt,
     find_option srv heap option_name stream_name = Some opt
     <-> exists pre post,
           scope_options srv stream_name = pre ++ opt :: post
           /\ get_name (heap !!! opt) = option_name
           /\ Forall (fun o => get_name (heap !!! o) <> option_name) pre)
  /\ (find_option srv heap option_name stream_name = None
      <-> Forall (fun o => get_name (heap !!! o) <> option_name)
            (scope_options srv stream_name)).
Proof.
  rewrite find_option_scope. split.
  - intros opt. apply find_by_name_Some.
  - apply find_by_name_None.
Qed.

(** *** The state [init] leaves *)

Lemma writer_after_cons root stream rest writer :
  writer_after root rest (writer_after root [stream] writer)
  = writer_after root (stream :: rest) writer.
Proof.
  unfold writer_after. destruct writer as [w |]; [done |]. simpl.
  by destruct (metadata_enabled stream), (existsb metadata_enabled rest).
Qed.

Lemma init_stream_Ok_state F heap stream s u s' ns :
  _notification_server s = Some ns ->
  init_stream F heap stream s = (Ok u, s') ->
  s' = with_notification_server
         (Some (handed [ stream_header_message stream;
                         stream_options_message heap stream ] ns))
         (with_metadata_writer
            (writer_after (_topic_root s) [stream] (_metadata_writer s))
            (with_stream_name_to_server
               (<[name stream := stream]> (_stream_name_to_server s)) s)).
Proof.
  intros Hns H. unfold init_stream in H.
  repeat first [run_step | deref_step].
  rewrite Hns in *. simplify_eq.
  match goal with
  | H : on_discovery_stream_header _ _ _ _ = _ |- _ =>
      apply on_discovery_stream_header_Ok in H; subst
  end.
  simpl in H. unfold writer_after. simpl.
  match goal with
  | |- context [_metadata_writer ?x] => destruct (_metadata_writer x) eqn:Hw
  end;
    destruct (metadata_enabled stream); repeat run_step;
    unfold with_notification_server, with_metadata_writer,
      with_stream_name_to_server; simpl; by rewrite ?Hw.
Qed.

Lemma init_streams_Ok_state F heap streams : forall s u s' ns,
  _notification_server s = Some ns ->
  for_each (init_stream F heap) streams s = (Ok u, s') ->
  s' = with_notification_server
         (Some (handed (stream_messages heap streams) ns))
         (with_metadata_writer
            (writer_after (_topic_root s) streams (_metadata_writer s))
            (with_stream_name_to_server
               (registered (_stream_name_to_server s) streams) s)).
Proof.
  induction streams as [| stream rest IH]; intros s u s' ns Hns H.
  - simpl in H. unfold ret in H. injection H as _ Hs. subst s'.
    unfold handed, writer_after. simpl. rewrite app_nil_r.
    destruct s as [? ? ? ? writer ? ? ? ? ?]; simpl in *. subst.
    by destruct writer, ns.
  - simpl in H. run_step.
    match goal with
    | H : init_stream _ _ _ _ = _ |- _ =>
        apply (init_stream_Ok_state _ _ _ _ _ _ _ Hns) in H; subst
    end.
    eapply IH in H; [| done]. subst s'. simpl.
    rewrite writer_after_cons, handed_app. done.
Qed.

Lemma init_Ok_state F heap streams options extr srv u srv' :
  init F heap streams options extr srv = (Ok u, srv') ->
  is_valid srv = false /\ srv' = initialised srv heap streams options extr.
Proof.
  intros H. apply init_Ok_try in H as [Hv H]. split; [done |].
  unfold init_try in H.
  repeat match goal with
  | H : bind _ _ _ = (Ok _, _) |- _ => apply bind_Ok in H as (? & ? & ? & H)
  end.
  repeat match goal with
  | H : extern _ _ _ = (Ok _, _) |- _ => apply extern_Ok in H as [_ ?]
  | H : gets _ _ = (Ok _, _) |- _ => unfold gets in H
  | H : modify _ _ = (Ok _, _) |- _ => unfold modify in H
  end.
  simplify_eq.
  repeat match goal with
  | H : deref_notification_server _ _ = (Ok _, _) |- _ =>
      apply deref_notification_server_Ok in H as (? & ? & ? & ? & ?)
  end.
  simplify_eq/=.
  match goal with
  | H : on_discovery_device_header _ _ _ _ _ _ = _ |- _ =>
      apply on_discovery_device_header_Ok in H
  end.
  match goal with
  | H : for_each _ _ _ = _ |- _ =>
      eapply init_streams_Ok_state in H; [| done]; rename H into Hs
  end.
  match goal with
  | H : notification_server_run _ _ = _ |- _ =>
      unfold notification_server_run in H; rename H into Hrun
  end.
  repeat run_step. simplify_eq/=. reflexivity.
Qed.

(** *** What [init] leaves alone *)

Lemma same_frame_refl s : same_frame s s.
Proof. by repeat split. Qed.

Lemma same_frame_trans s1 s2 s3 :
  same_frame s1 s2 -> same_frame s2 s3 -> same_frame s1 s3.
Proof.
  intros (? & ? & ? & ? & ?) (? & ? & ? & ? & ?).
  repeat split; congruence.
Qed.

Lemma frame_bind {A B} (m : M dds_device_server A)
    (k : A -> M dds_device_server B) :
  frame_kept m -> (forall a, frame_kept (k a)) -> frame_kept (bind m k).
Proof.
  intros Hm Hk s. unfold bind. specialize (Hm s).
  destruct (m s) as [[a | e |] s1]; simpl in *; [| done | done].
  eapply same_frame_trans; [done | apply Hk].
Qed.

Lemma frame_ret {A} (a : A) : frame_kept (ret a).
Proof. intros s. apply same_frame_refl. Qed.

Lemma frame_throw {A} e : frame_kept (throw e : M _ A).
Proof. intros s. apply same_frame_refl. Qed.

Lemma frame_get : frame_kept get.
Proof. intros s. apply same_frame_refl. Qed.

Lemma frame_gets {A} (f : dds_device_server -> A) : frame_kept (gets f).
Proof. intros s. apply same_frame_refl. Qed.

Lemma frame_extern F x : frame_kept (extern F x).
Proof. intros s. unfold extern. destruct (F x); apply same_frame_refl. Qed.

Lemma frame_modify f : (forall s, same_frame s (f s)) -> frame_kept (modify f).
Proof. intros Hf s. apply Hf. Qed.

Lemma frame_deref {A} (m : M dds_notification_server A) :
  frame_kept (deref_notification_server m).
Proof.
  intros s. unfold deref_notification_server.
  destruct (_notification_server s) as [ns |]; [| apply same_frame_refl].
  destruct (m ns). by repeat split.
Qed.

Lemma frame_for_each {A} (body : A -> M dds_device_server unit) l :
  (forall x, frame_kept (body x)) -> frame_kept (for_each body l).
Proof.
  intros Hbody. induction l as [| x rest IH]; simpl.
  - apply frame_ret.
  - by apply frame_bind.
Qed.

Lemma frame_try_catch {A} (m : M dds_device_server A) h :
  frame_kept m -> (forall e, frame_kept (h e)) -> frame_kept (try_catch m h).
Proof.
  intros Hm Hh s. unfold try_catch. specialize (Hm s).
  destruct (m s) as [[a | e |] s1]; simpl in *; [done | | done].
  eapply same_frame_trans; [done | apply Hh].
Qed.

Create HintDb frame.
#[local] Hint Resolve frame_ret frame_throw frame_get frame_gets
  frame_extern frame_deref : frame.

Ltac frame :=
  repeat first
    [ solve [auto with frame]
    | apply frame_bind; [| intros ?]
    | apply frame_for_each; intros ?
    | apply frame_modify; intros ?; by repeat split ].

Lemma frame_init_stream F heap stream : frame_kept (init_stream F heap stream).
Proof.
  unfold init_stream. frame.
  destruct (metadata_enabled stream);
    try match goal with
        | |- context [match ?w with Some _ => _ | None => _ end] => destruct w
        end; frame.
Qed.

#[local] Hint Resolve frame_init_stream : frame.

Lemma frame_init F heap streams options extr :
  frame_kept (init F heap streams options extr).
Proof.
  unfold init. frame.
  match goal with
  | |- context [is_valid ?s] => destruct (is_valid s)
  end; [apply frame_throw |].
  apply frame_try_catch.
  - unfold init_try. frame.
  - intros e. unfold init_catch. frame.
Qed.

(** *** [init] has defined behaviour *)

Lemma safe_bind {A B} (m : M dds_device_server A)
    (k : A -> M dds_device_server B) :
  channel_safe m -> (forall a, channel_safe (k a)) -> channel_safe (bind m k).
Proof.
  intros Hm Hk s Hs. unfold bind. destruct (Hm s Hs) as [Hd Hc].
  destruct (m s) as [[a | e |] s1]; simpl in *; [by apply Hk | done | done].
Qed.

Lemma safe_ret {A} (a : A) : channel_safe (ret a).
Proof. by intros s Hs. Qed.

Lemma safe_gets {A} (f : dds_device_server -> A) : channel_safe (gets f).
Proof. by intros s Hs. Qed.

Lemma safe_extern F x : channel_safe (extern F x).
Proof. intros s Hs. unfold extern. by destruct (F x). Qed.

Lemma safe_modify f :
  (forall s, _notification_server (f s) = _notification_server s) ->
  channel_safe (modify f).
Proof. intros Hf s Hs. simpl. by rewrite Hf. Qed.

Lemma safe_deref {A} (m : M dds_notification_server A) :
  defined m -> channel_safe (deref_notification_server m).
Proof.
  intros Hm s [ns Hns]. unfold deref_notification_server. rewrite Hns.
  specialize (Hm ns). destruct (m ns) as [r ns']. simpl in *. by eauto.
Qed.

Lemma safe_for_each {A} (body : A -> M dds_device_server unit) l :
  (forall x, channel_safe (body x)) -> channel_safe (for_each body l).
Proof.
  intros Hbody. induction l as [| x rest IH]; simpl.
  - apply safe_ret.
  - by apply safe_bind.
Qed.

Lemma defined_extern {S} F x : defined (extern F x : M S unit).
Proof. intros s. unfold extern. by destruct (F x). Qed.

Lemma defined_add_discovery_notification F msg :
  defined (add_discovery_notification F msg).
Proof.
  unfold add_discovery_notification.
  apply defined_bind; [apply defined_extern | intros; apply defined_modify].
Qed.

Create HintDb safe.
#[local] Hint Resolve safe_ret safe_gets safe_extern : safe.

Ltac safe :=
  repeat first
    [ solve [auto with safe]
    | apply safe_bind; [| intros ?]
    | apply safe_for_each; intros ?
    | apply safe_modify; intros ?; reflexivity ].

Lemma safe_init_stream F heap stream : channel_safe (init_stream F heap stream).
Proof.
  unfold init_stream. safe.
  - apply safe_deref. unfold on_discovery_stream_header.
    apply defined_bind; [| intros ?];
      apply defined_add_discovery_notification.
  - destruct (metadata_enabled stream);
      try match goal with
          | |- context [match ?w with Some _ => _ | None => _ end] =>
              destruct w
          end; safe.
Qed.

#[local] Hint Resolve safe_init_stream : safe.

Lemma init_try_defined F heap streams options extr srv :
  (init_try F heap streams options extr srv).1 <> Undefined.
Proof.
  unfold init_try. unfold bind at 1, gets at 1. unfold bind at 1.
  unfold extern at 1. destruct (F _); [done |].
  unfold bind at 1, modify at 1.
  match goal with
  | |- (?m ?s).1 <> _ =>
      assert (channel_safe m) as Hm; [| apply Hm; by eexists]
  end.
  safe.
  - apply safe_deref. unfold on_discovery_device_header.
    apply defined_bind; [| intros ?];
      apply defined_add_discovery_notification.
  - apply safe_deref. unfold notification_server_run.
    apply defined_bind; [apply defined_extern | intros; apply defined_modify].
Qed.

Lemma init_defined F heap streams options extr srv :
  (init F heap streams options extr srv).1 <> Undefined.
Proof.
  unfold init, bind at 1, get. simpl. destruct (is_valid srv); [done |].
  unfold try_catch.
  pose proof (init_try_defined F heap streams options extr srv) as Hd.
  destruct (init_try F heap streams options extr srv) as [[a | e |] s1];
    simpl in *; done.
Qed.

(** *** The stream map *)

Lemma registered_snoc m streams stream :
  registered m (streams ++ [stream])
  = <[name stream := stream]> (registered m streams).
Proof. unfold registered. by rewrite foldl_snoc. Qed.

Lemma registered_lookup_Some m streams : forall n s,
  registered m streams !! n = Some s ->
  (s ∈ streams /\ name s = n) \/ m !! n = Some s.
Proof.
  induction streams as [| x streams IH] using rev_ind; intros n s H.
  - by right.
  - rewrite registered_snoc in H.
    destruct (decide (name x = n)) as [<- | Hne].
    + rewrite lookup_insert_eq in H. simplify_eq. left.
      split; [| done]. apply elem_of_app. right. by apply list_elem_of_singleton.
    + rewrite lookup_insert_ne in H by done.
      apply IH in H as [[Hin Hn] | Hm]; [| by right].
      left. split; [| done]. apply elem_of_app. by left.
Qed.

Lemma registered_lookup_elem m streams : forall s,
  s ∈ streams -> is_Some (registered m streams !! name s).
Proof.
  induction streams as [| x streams IH] using rev_ind; intros s Hin.
  - by apply elem_of_nil in Hin.
  - rewrite registered_snoc.
    destruct (decide (name x = name s)) as [He | Hne].
    + rewrite He, lookup_insert_eq. by eexists.
    + rewrite lookup_insert_ne by done. apply IH.
      apply elem_of_app in Hin as [Hin | Hin]; [done |].
      apply list_elem_of_singleton in Hin. by subst.
Qed.

Lemma registered_lookup_NoDup m streams : forall s,
  NoDup (name <$> streams) ->
  s ∈ streams -> registered m streams !! name s = Some s.
Proof.
  induction streams as [| x streams IH] using rev_ind; intros s Hnd Hin.
  - by apply elem_of_nil in Hin.
  - rewrite registered_snoc. rewrite fmap_app in Hnd.
    apply NoDup_app in Hnd as (Hnd & Hfresh & _).
    apply elem_of_app in Hin as [Hin | Hin].
    + rewrite lookup_insert_ne; [by apply IH |].
      intros He. apply (Hfresh (name s)).
      * by apply list_elem_of_fmap_2.
      * rewrite <- He. simpl. by apply list_elem_of_singleton.
    + apply list_elem_of_singleton in Hin. subst. apply lookup_insert_eq.
Qed.

(** *** [init], its outcomes *)

Lemma init_Throw F heap streams options extr srv e srv' :
  is_valid srv = false ->
  init F heap streams options extr srv = (Throw e, srv') ->
  exists s1,
    init_try F heap streams options extr srv = (Throw e, s1)
    /\ srv' = with_control_reader None
                (with_stream_name_to_server ∅
                   (with_notification_server None s1)).
Proof.
  intros Hv. unfold init, bind at 1, get. simpl. rewrite Hv.
  unfold try_catch.
  destruct (init_try F heap streams options extr srv) as [[a | e' |] s1];
    [done | | done].
  unfold init_catch, bind, modify, throw. intros H. simplify_eq.
  by exists s1.
Qed.

(** X4: when [init] throws on a server that is not initialised, the
    notification channel and the control reader are absent and the stream
    map is empty afterwards, so the server is again not initialised; the
    topic root, the broadcaster and the callbacks are as they were. *)
Theorem init_failure_state F heap streams options extr srv e srv' :
  is_valid srv = false ->
  init F heap streams options extr srv = (Throw e, srv') ->
  _notification_server srv' = None
  /\ _stream_name_to_server srv' = ∅
  /\ _control_reader srv' = None
  /\ is_valid srv' = false
  /\ same_frame srv srv'.
Proof.
  intros Hv H.
  pose proof (frame_init F heap streams options extr srv) as Hf.
  rewrite H in Hf. simpl in Hf.
  apply init_Throw in H as (s1 & _ & ->); [| done].
  do 4 (split; [done |]). exact Hf.
Qed.

(** X5: after a failed [init], an [init] in which no call into the
    transport fails succeeds, whatever it is given, and leaves the state
    of a successful [init]. *)
Theorem init_retry_after_failure
    F F' heap streams options extr heap' streams' options' extr' srv e srv' :
  is_valid srv = false ->
  init F heap streams options extr srv = (Throw e, srv') ->
  (forall x, F' x = None) ->
  init F' heap' streams' options' extr' srv'
  = (Ok tt, initialised srv' heap' streams' options' extr').
Proof.
  intros Hv H HF'.
  apply init_Throw in H as (s1 & _ & ->); [| done].
  destruct (init_no_faults_succeeds F' heap' streams' options' extr'
              (with_control_reader None
                 (with_stream_name_to_server ∅
                    (with_notification_server None s1))) HF' eq_refl)
    as [srv'' Hok].
  rewrite Hok. by apply init_Ok_state in Hok as [_ ->].
Qed.

(** X6: a successful [init] was started on a server that was not
    initialised, and leaves exactly this: the channel running on the
    notification topic with the discovery messages cached and nothing
    sent, the stream map of the given streams, the given device options,
    the control reader running with its callback set, the metadata writer
    as [writer_after] says, and the topic root, the broadcaster and the
    callbacks as they were. *)
Theorem init_success_state F heap streams options extr srv srv' :
  init F heap streams options extr srv = (Ok tt, srv') ->
  is_valid srv = false
  /\ is_valid srv' = true
  /\ srv' = initialised srv heap streams options extr.
Proof.
  intros H. apply init_Ok_state in H as [Hv ->]. by repeat split.
Qed.

(** X7: after a successful [init] the stream map holds streams of this
    call only, each under its own name; every stream given has an entry
    under its name, and it is that stream when the names are distinct
    (of two streams of one name the later one stays). *)
Theorem init_registers_streams F heap streams options extr srv srv' :
  init F heap streams options extr srv = (Ok tt, srv') ->
  (forall n s,
     _stream_name_to_server srv' !! n = Some s -> s ∈ streams /\ name s = n)
  /\ (forall s,
        s ∈ streams -> is_Some (_stream_name_to_server srv' !! name s))
  /\ (NoDup (name <$> streams) ->
      forall s, s ∈ streams -> _stream_name_to_server srv' !! name s = Some s).
Proof.
  intros H. apply init_Ok_state in H as [_ ->]. simpl. repeat split.
  - by apply registered_lookup_Some in H as [[? ?] | ?].
  - by apply registered_lookup_Some in H as [[? ?] | ?].
  - intros s. apply registered_lookup_elem.
  - intros Hnd s. by apply registered_lookup_NoDup.
Qed.

(** X8: the metadata writer is created lazily and once.  After a
    successful [init] on a server without one, [publish_metadata] raises
    when no stream has metadata enabled and leaves the server as it is;
    when some stream has, the writer runs on the metadata topic and
    [publish_metadata] writes the message to it.  A writer that was
    there before the [init] is kept as it was. *)
Theorem publish_metadata_after_init
    F F' heap streams options extr md srv srv' :
  init F heap streams options extr srv = (Ok tt, srv') ->
  (_metadata_writer srv = None ->
   existsb metadata_enabled streams = false ->
   publish_metadata F' md srv'
   = (Throw (std_exception ("device '" +:+ _topic_root srv
                            +:+ "' has no stream with enabled metadata")),
      srv'))
  /\ (_metadata_writer srv = None ->
      existsb metadata_enabled streams = true ->
      F' (at_write_to md) = None ->
      _metadata_writer srv' = Some (started_writer (_topic_root srv))
      /\ publish_metadata F' md srv'
         = (Ok tt,
            with_metadata_writer
              (Some {| writer_topic := _topic_root srv +:+ METADATA_TOPIC_NAME;
                       writer_qos := Some metadata_qos;
                       written := [md] |}) srv'))
  /\ (forall w, _metadata_writer srv = Some w ->
                _metadata_writer srv' = Some w).
Proof.
  intros H. apply init_Ok_state in H as [_ ->].
  unfold publish_metadata, bind, get, extern, modify. simpl.
  split; [| split].
  - intros -> Hno. simpl. by rewrite Hno.
  - intros -> Hsome HF'. simpl. rewrite Hsome. simpl. by rewrite HF'.
  - by intros w ->.
Qed.

(** X9: [init] after a successful [init] raises "already initialized",
    whatever it is given, and leaves the server as the first [init] left
    it. *)
Theorem init_twice_after_success
    F F' heap streams options extr heap' streams' options' extr' srv srv' :
  init F heap streams options extr srv = (Ok tt, srv') ->
  init F' heap' streams' options' extr' srv'
  = (Throw (std_exception ("device server '" +:+ _topic_root srv
                           +:+ "' is already initialized")), srv').
Proof.
  intros H. apply init_Ok_state in H as [_ ->].
  exact (init_twice F' heap' streams' options' extr'
           (initialised srv heap streams options extr) eq_refl).
Qed.

(** X10: whatever [init] is given and however it ends, it has defined
    behaviour (it never uses an absent notification channel) and it
    leaves the topic root, the broadcaster and the callbacks as they
    were. *)
Theorem init_never_undefined F heap streams options extr srv :
  (init F heap streams options extr srv).1 <> Undefined
  /\ same_frame srv (init F heap streams options extr srv).2.
Proof. split; [apply init_defined | apply frame_init]. Qed.

(** *** Broadcast, its outcomes *)

(** X11: [broadcast] succeeds exactly when the server has no broadcaster,
    is initialised, has the topic root of the device info, and the
    broadcaster can be made; it then holds a broadcaster for that device
    info.  In every other case it throws and leaves the server as it
    was. *)
Theorem broadcast_outcome F device_info srv :
  ((broadcast F device_info srv).1 = Ok tt
   <-> _broadcaster srv = None
       /\ is_valid srv = true
       /\ topic_root device_info = _topic_root srv
       /\ F at_make_device_broadcaster = None)
  /\ ((broadcast F device_info srv).1 = Ok tt ->
      (broadcast F device_info srv).2
      = with_broadcaster (Some {| broadcast_info := device_info |}) srv)
  /\ ((broadcast F device_info srv).1 <> Ok tt ->
      (exists e, (broadcast F device_info srv).1 = Throw e)
      /\ (broadcast F device_info srv).2 = srv).
Proof.
  unfold broadcast, bind, get, is_valid, extern, modify, DDS_THROW, throw.
  simpl.
  destruct (_broadcaster srv) as [b |], (_notification_server srv) as [ns |];
    simpl; try (split; [split; [done | by intros (? & ? & ? & ?)] |];
                split; [done |]; intros _; by eauto).
  destruct (String.eqb (topic_root device_info) (_topic_root srv)) eqn:He;
    simpl.
  - apply String.eqb_eq in He.
    destruct (F at_make_device_broadcaster) as [e |]; simpl.
    + split; [split; [done | by intros (? & ? & ? & ?)] |].
      split; [done |]. intros _. by eauto.
    + split; [by split |]. split; [done |]. by intros [].
  - apply String.eqb_neq in He.
    split; [split; [done | by intros (? & ? & ? & ?)] |].
    split; [done |]. intros _. by eauto.
Qed.


(** *** set-option and query-option together *)

Lemma set_value_keeps_names (heap0 : gmap handle dds_option) opt value l :
  get_name (<[opt := set_value value (heap0 !!! opt)]> heap0 !!! l)
  = get_name (heap0 !!! l).
Proof.
  destruct (decide (opt = l)) as [-> | Hne].
  - by rewrite lookup_total_insert_eq.
  - by rewrite lookup_total_insert_ne.
Qed.

Lemma find_by_name_set_value (heap0 : gmap handle dds_option) opt value n opts :
  find_by_name (<[opt := set_value value (heap0 !!! opt)]> heap0) n opts
  = find_by_name heap0 n opts.
Proof.
  induction opts as [| o rest IH]; simpl; [done |].
  by rewrite set_value_keeps_names, IH.
Qed.

Lemma find_option_set_value srv (heap0 : gmap handle dds_option)
    opt value n stream_name :
  find_option srv (<[opt := set_value value (heap0 !!! opt)]> heap0)
    n stream_name
  = find_option srv heap0 n stream_name.
Proof. by rewrite !find_option_scope, find_by_name_set_value. Qed.

(** What a set-option that returns has done. *)
Lemma handle_set_option_Ok srv j reply w reply' w' option_name stream_name
    value_j value :
  json_at option_name_key j = Ok (JStr option_name) ->
  get_ex "" (nested stream_name_key j) = Ok stream_name ->
  json_at value_key j = Ok value_j ->
  json_get_float value_j = Ok value ->
  handle_set_option srv j (reply, w) = (Ok tt, (reply', w')) ->
  exists opt,
    find_option srv (heap w) option_name stream_name = Some opt
    /\ heap w' = <[opt := set_value value (heap w !!! opt)]> (heap w)
    /\ json_set value_key (JFloat value) reply = Ok reply'.
Proof.
  intros Hname Hstream Hat Hget.
  unfold handle_set_option, bind, lift, gets. simpl.
  rewrite Hname. simpl. rewrite Hstream.
  destruct (find_option srv (heap w) option_name stream_name) as [opt |];
    [| done].
  rewrite Hat, Hget. intros H. exists opt. split; [done |].
  unfold on_world, on_hw, zoom, set_option_value, modify, on_reply, ret in H.
  simpl in H.
  repeat (case_match; simplify_eq/=); done.
Qed.

(** X13: set-option followed by query-option.  After a set-option that
    returned, and without a query callback, querying the same option in
    the same scope gives the value that was set; querying an option that
    resolves to another object gives the value it had before; neither
    query writes anything. *)
Theorem set_then_query srv j reply reply' w w' option_name stream_name
    value_j value :
  json_at option_name_key j = Ok (JStr option_name) ->
  get_ex "" (nested stream_name_key j) = Ok stream_name ->
  json_at value_key j = Ok value_j ->
  json_get_float value_j = Ok value ->
  handle_set_option srv j (reply, w) = (Ok tt, (reply', w')) ->
  _query_option_callback srv = None ->
  exists opt,
    find_option srv (heap w) option_name stream_name = Some opt
    /\ query_option_j srv stream_name (JStr option_name) w' = (Ok value, w')
    /\ forall other_name other_stream other,
         find_option srv (heap w) other_name other_stream = Some other ->
         other <> opt ->
         query_option_j srv other_stream (JStr other_name) w'
         = (Ok (get_value (heap w !!! other)), w').
Proof.
  intros Hname Hstream Hat Hget Hset Hcb.
  destruct (handle_set_option_Ok _ _ _ _ _ _ _ _ _ _ Hname Hstream Hat Hget
              Hset) as (opt & Hfind & Hheap & _).
  exists opt. split; [done |].
  unfold query_option_j, bind, get, query_option, gets. rewrite Hcb, Hheap.
  split.
  - rewrite find_option_set_value, Hfind. rewrite Hheap.
    by rewrite lookup_total_insert_eq.
  - intros other_name other_stream other Hother Hne.
    rewrite find_option_set_value, Hother. rewrite Hheap.
    by rewrite lookup_total_insert_ne.
Qed.

(** X14: query-option with a single option name that resolves.  Without
    a query callback the reply's value is the cached value and nothing
    is written.  With one, the callback is asked; when it returns, its
    value goes into the option object and into the reply; when it
    throws, the handler throws the same and the option objects are as
    they were. *)
Theorem query_option_single srv j kvs w option_name stream_name opt :
  nested option_name_key j = JStr option_name ->
  get_ex "" (nested stream_name_key j) = Ok stream_name ->
  find_option srv (heap w) option_name stream_name = Some opt ->
  match _query_option_callback srv with
  | None =>
      handle_query_option srv j (JObj kvs, w)
      = (Ok tt,
         (JObj (obj_set value_key (JFloat (get_value (heap w !!! opt))) kvs),
          w))
  | Some callback =>
      match callback (heap w) opt (hw w) with
      | (Ok value, hw') =>
          handle_query_option srv j (JObj kvs, w)
          = (Ok tt,
             (JObj (obj_set value_key (JFloat value) kvs),
              {| heap := <[opt := set_value value (heap w !!! opt)]> (heap w);
                 hw := hw' |}))
      | (Throw e, hw') =>
          (handle_query_option srv j (JObj kvs, w)).1 = Throw e
          /\ (handle_query_option srv j (JObj kvs, w)).2.2
             = {| heap := heap w; hw := hw' |}
      | (Undefined, hw') =>
          (handle_query_option srv j (JObj kvs, w)).1 = Undefined
      end
  end.
Proof.
  intros Hname Hstream Hfind.
  unfold handle_query_option, bind at 1, lift. rewrite Hstream, Hname.
  unfold bind, on_world, zoom, query_option_j, bind, get. simpl.
  rewrite Hfind. unfold query_option.
  destruct (_query_option_callback srv) as [callback |].
  - unfold bind, on_hw, zoom, set_option_value, modify, ret, on_reply. simpl.
    by destruct (callback (heap w) opt (hw w)) as [[value | e |] hw'].
  - unfold gets, on_reply. simpl. by destruct w.
Qed.


(** X16: a set-option whose option resolves and whose value is missing
    or is not a number throws the JSON error before the set-value
    callback is reached: the device, the option objects and the reply
    are as they were. *)
Theorem set_option_bad_value srv j reply w option_name stream_name opt e :
  json_at option_name_key j = Ok (JStr option_name) ->
  get_ex "" (nested stream_name_key j) = Ok stream_name ->
  find_option srv (heap w) option_name stream_name = Some opt ->
  json_at value_key j = Throw e
  \/ (exists value_j,
        json_at value_key j = Ok value_j
        /\ json_get_float value_j = Throw e) ->
  handle_set_option srv j (reply, w) = (Throw e, (reply, w)).
Proof.
  intros Hname Hstream Hfind Hbad.
  unfold handle_set_option, bind, lift, gets. simpl.
  rewrite Hname. simpl. rewrite Hstream, Hfind.
  destruct Hbad as [-> | (value_j & -> & ->)]; done.
Qed.

(** *** What a reply echoes *)

Lemma kept_bind k {A B} (m : M (json * world) A) (f : A -> M (json * world) B) :
  field_kept k m -> (forall a, field_kept k (f a)) -> field_kept k (bind m f).
Proof.
  intros Hm Hf s. unfold bind. specialize (Hm s).
  destruct (m s) as [[a | e |] s1]; simpl in *; [| done | done].
  by rewrite Hf.
Qed.

Lemma kept_ret k {A} (a : A) : field_kept k (ret a).
Proof. by intros s. Qed.

Lemma kept_throw k {A} e : field_kept k (throw e : M _ A).
Proof. by intros s. Qed.

Lemma kept_lift k {A} (o : outcome A) : field_kept k (lift o).
Proof. by intros s. Qed.

Lemma kept_gets k {A} (f : json * world -> A) : field_kept k (gets f).
Proof. by intros s. Qed.

Lemma kept_on_world k {A} (m : M world A) : field_kept k (on_world m).
Proof. intros s. unfold on_world, zoom. by destruct (m s.2). Qed.

Lemma kept_on_reply_set k k' v :
  k' <> k -> field_kept k (on_reply (json_set k' v)).
Proof.
  intros Hne [reply w]. unfold on_reply. simpl.
  destruct reply; simpl; try done.
  - by rewrite (proj2 (String.eqb_neq k k')).
  - by apply obj_find_set_ne.
Qed.

Lemma kept_on_reply_update k k' f :
  k' <> k -> field_kept k (on_reply (json_update k' f)).
Proof.
  intros Hne [reply w]. unfold on_reply. simpl.
  destruct reply; simpl; try done.
  - destruct (f JNull); simpl; try done.
    by rewrite (proj2 (String.eqb_neq k k')).
  - destruct (f _); simpl; try done. by apply obj_find_set_ne.
Qed.

Lemma kept_for_each k {A} (body : A -> M (json * world) unit) l :
  (forall x, field_kept k (body x)) -> field_kept k (for_each body l).
Proof.
  intros Hbody. induction l as [| x rest IH]; simpl.
  - apply kept_ret.
  - by apply kept_bind.
Qed.

Lemma kept_handle_set_option k srv j :
  value_key <> k -> field_kept k (handle_set_option srv j).
Proof.
  intros Hk. unfold handle_set_option, DDS_THROW.
  repeat first [ apply kept_bind; [| intros ?] | apply kept_lift
               | apply kept_gets ].
  destruct (find_option _ _ _ _); [| apply kept_throw].
  repeat first [ apply kept_bind; [| intros ?] | apply kept_lift
               | apply kept_on_world | by apply kept_on_reply_set ].
  destruct (_set_option_callback srv); [apply kept_on_world | apply kept_ret].
Qed.

Lemma kept_handle_query_option k srv j :
  value_key <> k -> option_values_key <> k ->
  field_kept k (handle_query_option srv j).
Proof.
  intros Hv Ho. unfold handle_query_option.
  apply kept_bind; [apply kept_lift | intros stream_name].
  destruct (nested option_name_key j) as [| | | | | | [| x names] |];
    unfold query_all, query_each, query_all_body, query_each_body;
    repeat first
      [ apply kept_bind; [| intros ?]
      | apply kept_for_each; intros ?
      | apply kept_on_world | apply kept_gets | apply kept_ret
      | by apply kept_on_reply_set | by apply kept_on_reply_update ].
  destruct (String.eqb _ "");
    [| destruct (_ !! _)];
    repeat first
      [ apply kept_bind; [| intros ?]
      | apply kept_for_each; intros ?
      | apply kept_on_world | apply kept_gets | apply kept_ret
      | by apply kept_on_reply_update ].
Qed.

Lemma kept_handle_control_message k srv id j :
  id = id_set_option \/ id = id_query_option \/ _control_callback srv = None ->
  value_key <> k -> option_values_key <> k ->
  field_kept k (handle_control_message srv id j).
Proof.
  intros Hid Hv Ho. unfold handle_control_message.
  destruct (String.eqb id id_set_option) eqn:Hs;
    [by apply kept_handle_set_option |].
  destruct (String.eqb id id_query_option) eqn:Hq;
    [by apply kept_handle_query_option |].
  destruct Hid as [-> | [-> | ->]]; [done | done | apply kept_throw].
Qed.

Lemma kept_control_catch k e :
  status_key <> k -> explanation_key <> k -> field_kept k (control_catch e).
Proof.
  intros Hs He. unfold control_catch.
  apply kept_bind; [| intros ?]; by apply kept_on_reply_set.
Qed.

Lemma control_try_run srv j sample w id :
  json_at id_key j = Ok (JStr id) ->
  control_try srv j (reply_shell sample, w)
  = handle_control_message srv id j (reply_echo_of sample id j, w).
Proof.
  intros Hid. unfold control_try, bind, lift, on_reply. by rewrite Hid.
Qed.

(** The fields of the reply that the handlers and the [catch] block leave
    alone are those of [reply_echo_of]. *)
Lemma reply_of_field k srv j sample w id :
  json_at id_key j = Ok (JStr id) ->
  id = id_set_option \/ id = id_query_option \/ _control_callback srv = None ->
  value_key <> k -> option_values_key <> k ->
  status_key <> k -> explanation_key <> k ->
  field k (reply_of srv j sample w) = field k (reply_echo_of sample id j).
Proof.
  intros Hid Hbuiltin Hv Ho Hs He.
  unfold reply_of. rewrite control_reply_run. unfold try_catch.
  rewrite (control_try_run _ _ _ _ _ Hid).
  pose proof (kept_handle_control_message k srv id j Hbuiltin Hv Ho
                (reply_echo_of sample id j, w)) as Hk.
  destruct (handle_control_message srv id j (reply_echo_of sample id j, w))
    as [[[] | e |] s1]; simpl in *; try done.
  by rewrite (kept_control_catch k e Hs He s1).
Qed.

(** X17: the reply to a set-option, to a query-option, and to any
    message when no custom control callback is registered, carries the
    sample, the id and the whole control message, whether the handler
    returned or threw; when the handler returned it has no status and no
    explanation field (success is not written down). *)
Theorem reply_echoes_request srv j sample w id :
  json_at id_key j = Ok (JStr id) ->
  id = id_set_option \/ id = id_query_option \/ _control_callback srv = None ->
  field sample_key (reply_of srv j sample w) = Some (sample_json sample)
  /\ field id_key (reply_of srv j sample w) = Some (JStr id)
  /\ field control_key (reply_of srv j sample w) = Some j
  /\ ((control_try srv j (reply_shell sample, w)).1 = Ok tt ->
      field status_key (reply_of srv j sample w) = None
      /\ field explanation_key (reply_of srv j sample w) = None).
Proof.
  intros Hid Hbuiltin.
  split; [by rewrite (reply_of_field sample_key _ _ _ _ _ Hid Hbuiltin) |].
  split; [by rewrite (reply_of_field id_key _ _ _ _ _ Hid Hbuiltin) |].
  split; [by rewrite (reply_of_field control_key _ _ _ _ _ Hid Hbuiltin) |].
  intros Hok. unfold reply_of. rewrite control_reply_run. unfold try_catch.
  rewrite (control_try_run _ _ _ _ _ Hid) in *.
  pose proof (kept_handle_control_message status_key srv id j Hbuiltin
                ltac:(done) ltac:(done) (reply_echo_of sample id j, w)) as Hs.
  pose proof (kept_handle_control_message explanation_key srv id j Hbuiltin
                ltac:(done) ltac:(done) (reply_echo_of sample id j, w)) as He.
  destruct (handle_control_message srv id j (reply_echo_of sample id j, w))
    as [[[] | e |] s1]; simpl in *; done.
Qed.


(** X19: the task of a control message changes nothing of the server but
    the notifications sent: the reply is appended when it was built and
    [send_notification] did not fail, and the server is as it was
    otherwise.  Options, streams, reader, writer and the discovery cache
    are never written by a task. *)
Theorem control_task_server_frame F srv w j sample ns :
  _notification_server srv = Some ns ->
  (control_task F j sample (srv, w)).2.1
  = match (control_reply srv j sample (JNull, w)).1,
          F (at_send_notification (reply_of srv j sample w)) with
    | Ok _, None =>
        with_notification_server
          (Some (sent (reply_of srv j sample w) ns)) srv
    | _, _ => srv
    end.
Proof.
  intros Hns. unfold control_task, reply_of. simpl.
  destruct (control_reply srv j sample (JNull, w))
    as [[[] | e |] [reply w1]]; simpl; [| done | done].
  rewrite (publish_reply_swallowed _ _ _ _ Hns). simpl.
  by destruct (F (at_send_notification reply)).
Qed.

(** *** The drain loop, when a message does not parse *)

Lemma take_all_parse_failure pre : forall bad post tasks e,
  Forall (fun data => is_valid_msg data = true ->
                      exists j, json_data data = Ok j) pre ->
  is_valid_msg bad = true ->
  json_data bad = Throw e ->
  take_all (pre ++ bad :: post) (pre ++ bad :: post, tasks)
  = (Throw e, (post, tasks ++ omap task_of pre)).
Proof.
  induction pre as [| data rest IH]; intros bad post tasks e Hall Hv Hbad.
  - simpl. unfold bind, modify, lift. simpl. rewrite Hv, Hbad. simpl.
    by rewrite app_nil_r.
  - apply Forall_cons in Hall as [Hdata Hrest].
    cbn [take_all app omap list_omap]. unfold bind at 1, modify, task_of.
    simpl. destruct (is_valid_msg data).
    + destruct (Hdata eq_refl) as [j Hj]. rewrite Hj.
      unfold bind, lift. simpl.
      rewrite (IH _ _ _ _ Hrest Hv Hbad). by rewrite <- app_assoc.
    + by rewrite (IH _ _ _ _ Hrest Hv Hbad).
Qed.

(** X21: when a valid message of the reader does not parse,
    [on_control_message_received] throws the parser's exception; the
    tasks of the valid messages before it were handed over, in order,
    the message itself has been taken from the reader and is lost, and
    the messages after it stay in the reader. *)
Theorem on_control_message_received_parse_failure
    srv reader tasks pre bad post e :
  _control_reader srv = Some reader ->
  pending reader = pre ++ bad :: post ->
  Forall (fun data => is_valid_msg data = true ->
                      exists j, json_data data = Ok j) pre ->
  is_valid_msg bad = true ->
  json_data bad = Throw e ->
  on_control_message_received (srv, tasks)
  = (Throw e,
     (with_control_reader
        (Some {| reader_topic := reader_topic reader;
                 reader_qos := reader_qos reader;
                 data_available_callback := data_available_callback reader;
                 pending := post |}) srv,
      tasks ++ omap task_of pre)).
Proof.
  intros Hr Hp Hall Hv Hbad. unfold on_control_message_received. simpl.
  by rewrite Hr, Hp, (take_all_parse_failure _ _ _ _ _ Hall Hv Hbad).
Qed.

(** *** What the discovery cache announces *)

Lemma stream_headers_of_stream_messages heap streams :
  stream_headers (stream_messages heap streams)
  = map stream_header_message streams.
Proof.
  unfold stream_headers, stream_messages.
  induction streams as [| stream rest IH]; [done |].
  cbn [flat_map map app List.filter].
  change (has_id "stream-header" (stream_header_message stream)) with true.
  change (has_id "stream-header" (stream_options_message heap stream))
    with false.
  cbn iota. by rewrite IH.
Qed.

(** X22: the discovery cache a successful [init] leaves starts with the
    device header, and the number of streams it announces is the number
    of stream headers cached after it; these carry the names of the
    streams given, in their order (two streams of one name are both
    announced, although the stream map keeps one).  Nothing has been
    sent yet. *)
Theorem init_announces_streams F heap streams options extr srv srv' :
  init F heap streams options extr srv = (Ok tt, srv') ->
  exists ns header rest,
    _notification_server srv' = Some ns
    /\ discovery_notifications ns = header :: rest
    /\ has_id "device-header" header = true
    /\ field "n-streams" header
       = Some (JInt (Z.of_nat (length (stream_headers rest))))
    /\ map (field "name") (stream_headers rest)
       = map (fun stream => Some (JStr (name stream))) streams
    /\ length rest = 1 + 2 * length streams
    /\ notifications_sent ns = [].
Proof.
  intros H. apply init_Ok_state in H as [_ ->].
  exists (started_channel (_topic_root srv) heap streams options extr),
    (device_header_message (length streams) extr),
    (device_options_message heap options :: stream_messages heap streams).
  assert (Hh : stream_headers (device_options_message heap options
                               :: stream_messages heap streams)
               = map stream_header_message streams).
  { rewrite <- (stream_headers_of_stream_messages heap). reflexivity. }
  rewrite Hh, length_map.
  repeat split.
  - by rewrite map_map.
  - simpl. f_equal. unfold stream_messages. clear Hh.
    induction streams as [| stream rest IH]; [done |].
    cbn [flat_map app length]. lia.
Qed.

(** X23: once [init] has succeeded, [publish_notification] has defined
    behaviour: it appends the message to what the channel has sent and
    leaves the discovery cache alone, or throws what
    [send_notification] threw and leaves the server as it was. *)
Theorem publish_notification_after_init
    F F' heap streams options extr msg srv srv' :
  init F heap streams options extr srv = (Ok tt, srv') ->
  publish_notification F' msg srv'
  = match F' (at_send_notification msg) with
    | Some e => (Throw e, srv')
    | None =>
        (Ok tt,
         with_notification_server
           (Some (sent msg (started_channel (_topic_root srv) heap streams
                              options extr))) srv')
    end.
Proof.
  intros H. apply init_Ok_state in H as [_ ->].
  unfold publish_notification, deref_notification_server,
    send_notification, bind, extern, modify. simpl.
  by destruct (F' (at_send_notification msg)).
Qed.

(** *** The discovery messages, one by one *)

Lemma device_header_message_spec n_streams extr :
  is_device_header n_streams extr (device_header_message n_streams extr).
Proof. by repeat split. Qed.

Lemma device_options_message_spec heap options :
  is_device_options heap options (device_options_message heap options).
Proof. by repeat split. Qed.

Lemma stream_header_message_spec stream :
  is_stream_header stream (stream_header_message stream).
Proof. by repeat split. Qed.

Lemma stream_options_message_spec heap stream :
  is_stream_options heap stream (stream_options_message heap stream).
Proof. by repeat split. Qed.

Lemma stream_messages_pairs heap streams :
  stream_pairs heap streams (stream_messages heap streams).
Proof.
  induction streams as [| stream rest IH]; [done |].
  split; [apply stream_header_message_spec |].
  split; [apply stream_options_message_spec | exact IH].
Qed.

(** *** When a message is handed over *)

Lemma bind_run_Throw {S A B} (m : M S A) (k : A -> M S B) s e s1 :
  m s = (Throw e, s1) -> bind m k s = (Throw e, s1).
Proof. unfold bind. by intros ->. Qed.

(** A stream whose calls all succeed is set up. *)
Lemma init_stream_quiet F heap stream s ns :
  Forall (fun x => F x = None) (stream_calls (_topic_root s) heap stream) ->
  _notification_server s = Some ns ->
  exists s',
    init_stream F heap stream s = (Ok tt, s')
    /\ _notification_server s'
       = Some (handed [ stream_header_message stream;
                        stream_options_message heap stream ] ns)
    /\ _topic_root s' = _topic_root s.
Proof.
  intros Hall Hns.
  assert (Hrun : exists s', init_stream F heap stream s = (Ok tt, s')).
  { unfold stream_calls in Hall.
    apply Forall_cons in Hall as [Hopen Hall].
    apply Forall_cons in Hall as [Hheader Hall].
    apply Forall_cons in Hall as [Hoptions Hall].
    apply Forall_cons in Hall as [Htopic Hall].
    apply Forall_cons in Hall as [Hmake Hall].
    apply Forall_cons in Hall as [Hqos Hall].
    apply Forall_cons in Hall as [Hstart _].
    unfold init_stream, bind, gets, extern, modify,
      deref_notification_server, on_discovery_stream_header,
      add_discovery_notification, bind, extern, modify.
    cbv beta iota. rewrite Hopen. cbv beta iota.
    cbn [_notification_server with_stream_name_to_server].
    rewrite Hns, Hheader, Hoptions, Htopic, Hmake, Hqos, Hstart.
    cbv beta iota.
    destruct (metadata_enabled stream); [| by eexists].
    match goal with
    | |- context [match ?w with Some _ => _ | None => _ end] => destruct w
    end; by eexists. }
  destruct Hrun as [s' Hrun]. exists s'. split; [exact Hrun |].
  split; [by eapply init_stream_Ok |].
  pose proof (frame_init_stream F heap stream s) as Hf.
  rewrite Hrun in Hf. exact (proj1 Hf).
Qed.

(** The hand-over of the stream header fails: nothing of the stream is
    in the channel. *)
Lemma init_stream_header_refused F heap stream s ns e :
  F (at_stream_open (name stream)
       (ros_friendly_topic_name (_topic_root s +:+ "/" +:+ name stream)))
  = None ->
  F (at_add_discovery_notification (stream_header_message stream))
  = Some e ->
  _notification_server s = Some ns ->
  exists s1,
    init_stream F heap stream s = (Throw e, s1)
    /\ _notification_server s1 = Some ns.
Proof.
  intros Hopen Hheader Hns.
  unfold init_stream, bind, gets, extern, modify,
    deref_notification_server, on_discovery_stream_header,
    add_discovery_notification, bind, extern, modify.
  cbv beta iota. rewrite Hopen. cbv beta iota.
  cbn [_notification_server with_stream_name_to_server].
  rewrite Hns, Hheader. cbv beta iota. by eexists.
Qed.

(** The hand-over of the stream options fails: the stream header is in
    the channel already. *)
Lemma init_stream_options_refused F heap stream s ns e :
  F (at_stream_open (name stream)
       (ros_friendly_topic_name (_topic_root s +:+ "/" +:+ name stream)))
  = None ->
  F (at_add_discovery_notification (stream_header_message stream)) = None ->
  F (at_add_discovery_notification (stream_options_message heap stream))
  = Some e ->
  _notification_server s = Some ns ->
  exists s1,
    init_stream F heap stream s = (Throw e, s1)
    /\ _notification_server s1
       = Some (handed [stream_header_message stream] ns).
Proof.
  intros Hopen Hheader Hoptions Hns.
  unfold init_stream, bind, gets, extern, modify,
    deref_notification_server, on_discovery_stream_header,
    add_discovery_notification, bind, extern, modify.
  cbv beta iota. rewrite Hopen. cbv beta iota.
  cbn [_notification_server with_stream_name_to_server].
  rewrite Hns, Hheader, Hoptions. cbv beta iota. by eexists.
Qed.

(** The calls of a stream succeed when its two hand-overs do and
    nothing else fails. *)
Lemma stream_calls_quiet (F : faults) root heap stream :
  (forall x, (forall m, x <> at_add_discovery_notification m) ->
             F x = None) ->
  F (at_add_discovery_notification (stream_header_message stream)) = None ->
  F (at_add_discovery_notification (stream_options_message heap stream))
  = None ->
  Forall (fun x => F x = None) (stream_calls root heap stream).
Proof.
  intros Hnon Hheader Hoptions. unfold stream_calls.
  repeat apply Forall_cons_2; try apply Forall_nil_2;
    try done; by apply Hnon.
Qed.

(** The loop over the streams, stopped by the hand-over of [msg]: the
    channel has gained the messages before it. *)
Lemma init_streams_refused (F : faults) heap streams :
  forall s ns pre msg post e,
  (forall x, (forall m, x <> at_add_discovery_notification m) ->
             F x = None) ->
  _notification_server s = Some ns ->
  stream_messages heap streams = pre ++ msg :: post ->
  Forall (fun m => F (at_add_discovery_notification m) = None) pre ->
  F (at_add_discovery_notification msg) = Some e ->
  exists s1 ns1,
    for_each (init_stream F heap) streams s = (Throw e, s1)
    /\ _notification_server s1 = Some ns1
    /\ discovery_notifications ns1 = discovery_notifications ns ++ pre.
Proof.
  induction streams as [| stream rest IH];
    intros s ns pre msg post e Hnon Hns Hsplit Hpre Hmsg.
  - by destruct pre.
  - change (stream_messages heap (stream :: rest))
      with (stream_header_message stream
            :: stream_options_message heap stream
            :: stream_messages heap rest) in Hsplit.
    assert (Hopen : forall s0 : dds_device_server,
      F (at_stream_open (name stream)
           (ros_friendly_topic_name
              (_topic_root s0 +:+ "/" +:+ name stream))) = None)
      by (intros s0; by apply Hnon).
    cbn [for_each].
    destruct pre as [| p1 [| p2 pre]]; simpl in Hsplit.
    + injection Hsplit as Hm _. subst msg.
      destruct (init_stream_header_refused F heap stream s ns e
                  (Hopen s) Hmsg Hns) as (s1 & Hrun & Hns1).
      exists s1, ns. rewrite (bind_run_Throw _ _ _ _ _ Hrun).
      by rewrite app_nil_r.
    + injection Hsplit as H1 Hm _. subst p1 msg.
      apply Forall_cons in Hpre as [Hheader _].
      destruct (init_stream_options_refused F heap stream s ns e
                  (Hopen s) Hheader Hmsg Hns) as (s1 & Hrun & Hns1).
      eexists s1, _. rewrite (bind_run_Throw _ _ _ _ _ Hrun).
      by repeat split.
    + injection Hsplit as H1 H2 Hsplit. subst p1 p2.
      apply Forall_cons in Hpre as [Hheader Hpre].
      apply Forall_cons in Hpre as [Hoptions Hpre].
      destruct (init_stream_quiet F heap stream s ns
                  (stream_calls_quiet _ _ _ _ Hnon Hheader Hoptions) Hns)
        as (s' & Hrun & Hns' & _).
      destruct (IH s' _ pre msg post e Hnon Hns' Hsplit Hpre Hmsg)
        as (s1 & ns1 & Hrest & Hns1 & Hdisc).
      exists s1, ns1. rewrite (bind_run_Ok _ _ _ _ _ Hrun).
      split; [exact Hrest |]. split; [exact Hns1 |].
      rewrite Hdisc. simpl. by rewrite <- app_assoc.
Qed.

(** The [try] block of [init], stopped by the hand-over of [msg]: the
    channel holds the messages before it and no other. *)
Lemma init_try_refused (F : faults) heap streams options extr srv
    pre msg post e :
  (forall x, (forall m, x <> at_add_discovery_notification m) ->
             F x = None) ->
  device_header_message (length streams) extr
  :: device_options_message heap options
  :: stream_messages heap streams
  = pre ++ msg :: post ->
  Forall (fun m => F (at_add_discovery_notification m) = None) pre ->
  F (at_add_discovery_notification msg) = Some e ->
  exists srv1 ns1,
    init_try F heap streams options extr srv = (Throw e, srv1)
    /\ _notification_server srv1 = Some ns1
    /\ discovery_notifications ns1 = pre.
Proof.
  intros Hnon Hsplit Hpre Hmsg.
  assert (Hmake : F (at_make_notification_server
                       (_topic_root srv +:+ NOTIFICATION_TOPIC_NAME)) = None)
    by (by apply Hnon).
  unfold init_try, bind, gets, extern, modify, deref_notification_server,
    on_discovery_device_header, add_discovery_notification, bind, extern,
    modify.
  cbv beta iota. rewrite Hmake. cbv beta iota.
  cbn [_notification_server with_options with_stream_name_to_server
       with_notification_server].
  destruct pre as [| p1 [| p2 pre]]; simpl in Hsplit.
  - injection Hsplit as Hm _. subst msg.
    rewrite Hmsg. cbv beta iota. by eexists _, _.
  - injection Hsplit as H1 Hm _. subst p1 msg.
    apply Forall_cons in Hpre as [Hheader _].
    rewrite Hheader, Hmsg. cbv beta iota. by eexists _, _.
  - injection Hsplit as H1 H2 Hsplit. subst p1 p2.
    apply Forall_cons in Hpre as [Hheader Hpre].
    apply Forall_cons in Hpre as [Hoptions Hpre].
    rewrite Hheader, Hoptions. cbv beta iota.
    match goal with
    | |- context [for_each (init_stream F heap) streams ?s0] =>
        destruct (init_streams_refused F heap streams s0 _ pre msg post e
                    Hnon eq_refl Hsplit Hpre Hmsg)
          as (s1 & ns1 & Hrun & Hns1 & Hdisc)
    end.
    rewrite Hrun. by exists s1, ns1.
Qed.

(** C2: after a successful [init] the notification channel holds, as
    its discovery notifications, exactly: a device-header message with
    the number of streams and the extrinsics triples, a device-options
    message with every device option, and then for each stream, in the
    order of the list, its stream-header message followed by its
    stream-options message.  Each message is handed over before the
    next one: had the hand-over of any one of them failed, with the
    earlier hand-overs and every other call succeeding, the [try] block
    would have stopped there with exactly the earlier messages in the
    channel. *)
Theorem init_discovery_sequence F heap streams options extr srv srv' :
  init F heap streams options extr srv = (Ok tt, srv') ->
  exists ns header device_options rest,
    _notification_server srv' = Some ns
    /\ discovery_notifications ns = header :: device_options :: rest
    /\ is_device_header (length streams) extr header
    /\ is_device_options heap options device_options
    /\ stream_pairs heap streams rest
    /\ forall (F' : faults) pre msg post e,
         discovery_notifications ns = pre ++ msg :: post ->
         (forall x, (forall m, x <> at_add_discovery_notification m) ->
                    F' x = None) ->
         Forall (fun m => F' (at_add_discovery_notification m) = None) pre ->
         F' (at_add_discovery_notification msg) = Some e ->
         exists srv1 ns1,
           init_try F' heap streams options extr srv = (Throw e, srv1)
           /\ _notification_server srv1 = Some ns1
           /\ discovery_notifications ns1 = pre.
Proof.
  intros H. apply init_Ok_state in H as [_ ->].
  exists (started_channel (_topic_root srv) heap streams options extr),
    (device_header_message (length streams) extr),
    (device_options_message heap options),
    (stream_messages heap streams).
  split; [reflexivity |]. split; [reflexivity |].
  split; [apply device_header_message_spec |].
  split; [apply device_options_message_spec |].
  split; [apply stream_messages_pairs |].
  intros F' pre msg post e Hsplit Hnon Hpre Hmsg.
  by apply (init_try_refused F' heap streams options extr srv
              pre msg post e).
Qed.

(** *** The topic a stream is opened on *)

(** Opening the stream fails: nothing of the stream has been done. *)
Lemma init_stream_open_refused F heap stream s e :
  F (at_stream_open (name stream)
       (stream_topic (_topic_root s) (name stream))) = Some e ->
  init_stream F heap stream s = (Throw e, s).
Proof.
  rewrite <- ros_friendly_topic_name_under_root. intros Hopen.
  unfold init_stream, bind, gets, extern. cbv beta iota.
  by rewrite Hopen.
Qed.

(** The calls of a stream succeed when its topic can be opened and
    nothing but an [open] fails. *)
Lemma stream_calls_open (F : faults) root heap stream :
  (forall x, (forall n t, x <> at_stream_open n t) -> F x = None) ->
  F (at_stream_open (name stream) (stream_topic root (name stream))) = None ->
  Forall (fun x => F x = None) (stream_calls root heap stream).
Proof.
  intros Hnon Hopen. unfold stream_calls.
  rewrite ros_friendly_topic_name_under_root.
  repeat apply Forall_cons_2; try apply Forall_nil_2;
    try done; by apply Hnon.
Qed.

(** The loop over streams whose topics can all be opened. *)
Lemma init_streams_opened (F : faults) heap streams : forall s ns,
  (forall x, (forall n t, x <> at_stream_open n t) -> F x = None) ->
  _notification_server s = Some ns ->
  Forall (fun stream =>
            F (at_stream_open (name stream)
                 (stream_topic (_topic_root s) (name stream))) = None)
         streams ->
  exists s' ns',
    for_each (init_stream F heap) streams s = (Ok tt, s')
    /\ _notification_server s' = Some ns'
    /\ _topic_root s' = _topic_root s.
Proof.
  induction streams as [| stream rest IH]; intros s ns Hnon Hns Hall.
  - by exists s, ns.
  - apply Forall_cons in Hall as [Hopen Hall].
    destruct (init_stream_quiet F heap stream s ns
                (stream_calls_open _ _ _ _ Hnon Hopen) Hns)
      as (s1 & Hrun & Hns1 & Hroot).
    rewrite <- Hroot in Hall.
    destruct (IH s1 _ Hnon Hns1 Hall) as (s' & ns' & Hrest & Hns' & Hroot').
    exists s', ns'. cbn [for_each]. rewrite (bind_run_Ok _ _ _ _ _ Hrun).
    split; [exact Hrest |]. split; [exact Hns' |]. congruence.
Qed.

(** The loop stopped at the first stream whose topic cannot be
    opened. *)
Lemma init_streams_open_refused (F : faults) heap stream post e :
  forall pre s ns,
    (forall x, (forall n t, x <> at_stream_open n t) -> F x = None) ->
    _notification_server s = Some ns ->
    Forall (fun stream =>
              F (at_stream_open (name stream)
                   (stream_topic (_topic_root s) (name stream))) = None)
           pre ->
    F (at_stream_open (name stream)
         (stream_topic (_topic_root s) (name stream))) = Some e ->
    exists s1,
      for_each (init_stream F heap) (pre ++ stream :: post) s
      = (Throw e, s1).
Proof.
  induction pre as [| first pre IH]; intros s ns Hnon Hns Hall Hopen.
  - exists s. cbn [app for_each].
    by rewrite (bind_run_Throw _ _ _ _ _
                  (init_stream_open_refused F heap stream s e Hopen)).
  - apply Forall_cons in Hall as [Hfirst Hall].
    destruct (init_stream_quiet F heap first s ns
                (stream_calls_open _ _ _ _ Hnon Hfirst) Hns)
      as (s1 & Hrun & Hns1 & Hroot).
    rewrite <- Hroot in Hall, Hopen.
    destruct (IH s1 _ Hnon Hns1 Hall Hopen) as (s2 & Hrest).
    exists s2. cbn [app for_each].
    by rewrite (bind_run_Ok _ _ _ _ _ Hrun).
Qed.

(** X2: the topic [init] opens a stream on is [stream_topic] of the
    topic root and the stream name: with a slash in the root, the slash
    [init] puts between root and name becomes an underscore, as does
    every slash of the name; with none, that slash is the one kept.
    When nothing but an [open] can fail, [init] succeeds as soon as each
    stream can be opened under its name on this topic, whatever would
    happen on any other topic, and it throws what [open] throws for the
    first stream that cannot. *)
Theorem stream_topic_name (F : faults) heap streams options extr srv :
  is_valid srv = false ->
  (forall x, (forall n t, x <> at_stream_open n t) -> F x = None) ->
  (Forall (fun stream =>
             F (at_stream_open (name stream)
                  (stream_topic (_topic_root srv) (name stream))) = None)
          streams ->
   (init F heap streams options extr srv).1 = Ok tt)
  /\ (forall pre stream post e,
        streams = pre ++ stream :: post ->
        Forall (fun stream =>
                  F (at_stream_open (name stream)
                       (stream_topic (_topic_root srv) (name stream)))
                  = None) pre ->
        F (at_stream_open (name stream)
             (stream_topic (_topic_root srv) (name stream))) = Some e ->
        (init F heap streams options extr srv).1 = Throw e).
Proof.
  intros Hv Hnon.
  assert (Hmake : F (at_make_notification_server
                       (_topic_root srv +:+ NOTIFICATION_TOPIC_NAME)) = None)
    by (by apply Hnon).
  assert (Hheader : F (at_add_discovery_notification
                         (device_header_message (length streams) extr))
                    = None) by (by apply Hnon).
  assert (Hoptions : F (at_add_discovery_notification
                          (device_options_message heap options)) = None)
    by (by apply Hnon).
  assert (Hstart : F at_notification_server_run = None) by (by apply Hnon).
  assert (Htopic : F (at_create_topic
                        (_topic_root srv +:+ CONTROL_TOPIC_NAME)) = None)
    by (by apply Hnon).
  assert (Hreader : F at_make_topic_reader = None) by (by apply Hnon).
  assert (Hqos : F (at_override_from_json "control") = None)
    by (by apply Hnon).
  assert (Hrun : F at_topic_reader_run = None) by (by apply Hnon).
  split.
  - intros Hall. unfold init, bind at 1, get. cbv beta iota.
    rewrite Hv. cbv iota.
    assert (Htry : exists srv',
              init_try F heap streams options extr srv = (Ok tt, srv')).
    { unfold init_try, bind, gets, extern, modify,
        deref_notification_server, on_discovery_device_header,
        add_discovery_notification, notification_server_run, bind, extern,
        modify.
      cbv beta iota. rewrite Hmake. cbv beta iota.
      cbn [_notification_server with_options with_stream_name_to_server
           with_notification_server].
      rewrite Hheader, Hoptions. cbv beta iota.
      match goal with
      | |- context [for_each (init_stream F heap) streams ?s0] =>
          destruct (init_streams_opened F heap streams s0 _ Hnon eq_refl
                      Hall) as (s1 & ns1 & Hloop & Hns1 & _)
      end.
      rewrite Hloop. cbv beta iota.
      rewrite Hns1, Hstart, Htopic, Hreader, Hqos, Hrun. cbv beta iota.
      by eexists. }
    destruct Htry as [srv' Htry].
    by rewrite (try_catch_Ok _ _ _ _ _ Htry).
  - intros pre stream post e -> Hall Hopen.
    unfold init, bind at 1, get. cbv beta iota. rewrite Hv. cbv iota.
    assert (Htry : exists s1,
              init_try F heap (pre ++ stream :: post) options extr srv
              = (Throw e, s1)).
    { unfold init_try, bind, gets, extern, modify,
        deref_notification_server, on_discovery_device_header,
        add_discovery_notification, notification_server_run, bind, extern,
        modify.
      cbv beta iota. rewrite Hmake. cbv beta iota.
      cbn [_notification_server with_options with_stream_name_to_server
           with_notification_server].
      rewrite Hheader, Hoptions. cbv beta iota.
      match goal with
      | |- context [for_each (init_stream F heap) _ ?s0] =>
          destruct (init_streams_open_refused F heap stream post e pre s0 _
                      Hnon eq_refl Hall Hopen) as (s1 & Hloop)
      end.
      rewrite Hloop. by eexists. }
    destruct Htry as [s1 Htry].
    by rewrite (try_catch_Throw _ _ _ _ _ Htry).
Qed.

End Properties.

(** ** The camera scenario *)

Section CameraProperties.
#[local] Existing Instance camera_float.
#[local] Existing Instance camera_platform.

(** C1: [init] with a metadata-enabled stream, failing when the metadata
    writer is started.  The exception is thrown again and the
    notification channel, the stream map and the control reader are
    reset; the metadata writer created by the failed call and the device
    options it stored are still there, so the server is not back in the
    state it had before.  The next [init], without faults, succeeds but
    finds the writer in place and never starts it, whereas an [init]
    that did not fail leaves a started writer. *)
Theorem init_failure_keeps_metadata_writer :
  let failed := camera_init writer_run_fails camera in
  let retried := camera_init no_faults failed.2 in
  failed.1 = Throw (std_exception "writer cannot run")
  /\ _notification_server failed.2 = None
  /\ _stream_name_to_server failed.2 = ∅
  /\ _control_reader failed.2 = None
  /\ _metadata_writer failed.2
     = Some {| writer_topic := "realsense/D435/metadata";
               writer_qos := None; written := [] |}
  /\ _options failed.2 = [1]
  /\ failed.2 <> camera
  /\ retried.1 = Ok tt
  /\ _metadata_writer retried.2
     = Some {| writer_topic := "realsense/D435/metadata";
               writer_qos := None; written := [] |}
  /\ _metadata_writer camera_ready
     = Some {| writer_topic := "realsense/D435/metadata";
               writer_qos :=
                 Some {| qos_reliability := BEST_EFFORT_RELIABILITY_QOS;
                         history_depth := Some 10%Z |};
               written := [] |}.
Proof.
  repeat split; try (vm_compute; reflexivity).
  intros H. apply (f_equal _options) in H. vm_compute in H. discriminate.
Qed.

(** C2 at the camera with its two streams: the six discovery messages,
    and the channel at the moment it refuses the options of color. *)
Lemma init_discovery_sequence_witness :
  init no_faults camera_heap [color; motion] [1] [] camera
  = (Ok tt, camera_both)
  /\ (exists ns,
        _notification_server camera_both = Some ns
        /\ discovery_notifications ns
           = [ JObj [ ("extrinsics", JArr []); ("id", JStr "device-header");
                      ("n-streams", JInt 2) ];
               JObj [ ("id", JStr "device-options");
                      ("options",
                        JArr [ JObj [ ("name", JStr "a");
                                      ("value", JFloat 7%Z) ] ]) ];
               stream_header_message color;
               stream_options_message camera_heap color;
               stream_header_message motion;
               stream_options_message camera_heap motion ])
  /\ (exists header device_options rest,
        (discovery_notifications <$> _notification_server camera_both)
        = Some (header :: device_options :: rest)
        /\ is_device_header 2 [] header
        /\ is_device_options camera_heap [1] device_options
        /\ stream_pairs camera_heap [color; motion] rest)
  /\ exists srv1 ns1,
       init_try stream_options_refused camera_heap [color; motion] [1] []
         camera
       = (Throw (std_exception "channel closed"), srv1)
       /\ _notification_server srv1 = Some ns1
       /\ discovery_notifications ns1
          = [ device_header_message 2 [];
              device_options_message camera_heap [1];
              stream_header_message color ].
Proof.
  assert (H : init no_faults camera_heap [color; motion] [1] [] camera
              = (Ok tt, camera_both))
    by (vm_compute; reflexivity).
  split; [exact H |].
  split; [eexists; split; vm_compute; reflexivity |].
  destruct (init_discovery_sequence no_faults camera_heap [color; motion]
              [1] [] camera camera_both H)
    as (ns & header & device_options & rest & Hns & Hdisc & Hheader
        & Hoptions & Hpairs & Hhanded).
  split.
  { exists header, device_options, rest. rewrite Hns.
    unfold fmap, option_fmap, option_map. rewrite Hdisc.
    split; [reflexivity |]. split; [exact Hheader |].
    split; [exact Hoptions | exact Hpairs]. }
  apply (Hhanded stream_options_refused
           [ device_header_message 2 [];
             device_options_message camera_heap [1];
             stream_header_message color ]
           (stream_options_message camera_heap color)
           [ stream_header_message motion;
             stream_options_message camera_heap motion ]
           (std_exception "channel closed")).
  - assert (Hc : _notification_server camera_both
                 = Some (started_channel "realsense/D435" camera_heap
                           [color; motion] [1] []))
      by (vm_compute; reflexivity).
    rewrite Hc in Hns. injection Hns as <-. reflexivity.
  - intros x Hx. destruct x; try reflexivity. by destruct (Hx msg).
  - repeat apply Forall_cons_2; [| | | apply Forall_nil_2];
      vm_compute; reflexivity.
  - vm_compute. reflexivity.
Defined.

(** C3 at the camera: the device refuses the exposure; the handler throws
    what the callback threw and the option objects are as they were. *)
Lemma set_option_callback_before_update_witness :
  find_option (on_set_option device_busy camera_ready) camera_heap
    "exposure" "color" = Some 0
  /\ handle_set_option (on_set_option device_busy camera_ready)
       set_exposure (reply_shell client, camera_world)
     = (Throw (std_exception "device busy"),
        (reply_shell client, camera_world)).
Proof.
  assert (H : find_option (on_set_option device_busy camera_ready)
                camera_heap "exposure" "color" = Some 0)
    by (vm_compute; reflexivity).
  split; [exact H |].
  exact (proj2 (set_option_callback_before_update
           (on_set_option device_busy camera_ready) set_exposure
           (reply_shell client)
           (JObj [("sample", sample_json client); ("value", JFloat 150%Z)])
           camera_world "exposure" "color" 0 (JInt 150) 150%Z
           eq_refl eq_refl H eq_refl eq_refl eq_refl)).
Defined.

(** The same request when the device applies the value: the option holds
    150 afterwards, the device has received it, and the reply carries
    it. *)
Example set_exposure_applied :
  handle_set_option (on_set_option device_applies camera_ready)
    set_exposure (reply_shell client, camera_world)
  = (Ok tt,
     (JObj [("sample", sample_json client); ("value", JFloat 150%Z)],
      {| heap := <[0 := {| get_name := "exposure"; get_value := 150%Z;
                           properties := JNull |}]> camera_heap;
         hw := [(0, 150%Z)] |})).
Proof. vm_compute. reflexivity. Qed.

(** C4 as stated fails: the device has an option a and no option b; the
    reply of the task for a query of a and b carries status error, names
    b, and still holds the value queried for a; this reply is what the
    task sends. *)
Lemma query_option_array_partial_reply :
  let reply := reply_of camera_ready query_a_b client camera_world in
  field status_key reply = Some (JStr "error")
  /\ field explanation_key reply = Some (JStr "device option 'b' not found")
  /\ field value_key reply = Some (JArr [JFloat 7%Z])
  /\ (notifications_sent <$>
        _notification_server
          (control_task no_faults query_a_b client
             (camera_ready, camera_world)).2.1)
     = Some [reply].
Proof. vm_compute. repeat split. Qed.

(** C4, as the code has it, at the camera: a and b with b unknown throws
    naming b and leaves the value of a in the reply. *)
Lemma query_option_array_witness :
  nested option_name_key query_a_b = JArr (map JStr ["a"; "b"])
  /\ handle_query_option camera_ready query_a_b
       (reply_shell client, camera_world)
     = (Throw (std_exception "device option 'b' not found"),
        (JObj [("sample", sample_json client);
               ("value", JArr [JFloat 7%Z])], camera_world)).
Proof.
  split; [reflexivity |].
  assert (Hne : ["a"; "b"] <> @nil string) by discriminate.
  assert (Hq : query_names_in_order camera_ready "" (map JStr ["a"])
                 camera_world = (Ok [7%Z], camera_world))
    by (vm_compute; reflexivity).
  assert (Hf : find_option camera_ready (heap camera_world) "b" "" = None)
    by (vm_compute; reflexivity).
  exact (proj2 (query_option_array camera_ready query_a_b
                  [("sample", sample_json client)] camera_world
                  "" ["a"; "b"] eq_refl Hne eq_refl eq_refl)
           ["a"] "b" [] [7%Z] camera_world eq_refl Hq Hf).
Defined.


(** An unknown stream gives an empty object and no error. *)
Example query_all_unknown_stream :
  handle_query_option camera_ready (query_all_of "depth")
    (reply_shell client, camera_world)
  = (Ok tt,
     (JObj [("option-values", JObj []); ("sample", sample_json client)],
      camera_world)).
Proof. vm_compute. reflexivity. Qed.

(** C8 at the camera: the device has no option gain. *)
Lemma set_option_unknown_option_witness :
  find_option camera_ready (heap camera_world) "gain" "" = None
  /\ exists reply,
       control_reply camera_ready set_gain client (JNull, camera_world)
       = (Ok tt, (reply, camera_world))
       /\ field status_key reply = Some (JStr "error")
       /\ field explanation_key reply
          = Some (JStr "device option 'gain' not found")
       /\ field value_key reply = None.
Proof.
  assert (Hf : find_option camera_ready (heap camera_world) "gain" "" = None)
    by (vm_compute; reflexivity).
  split; [exact Hf |].
  exact (set_option_unknown_option camera_ready set_gain client camera_world
           "gain" "" eq_refl eq_refl eq_refl Hf).
Defined.

(** In the scope of a stream the explanation quotes the stream name. *)
Example set_option_unknown_stream :
  field explanation_key
    (reply_of camera_ready set_depth_exposure client camera_world)
  = Some (JStr "'depth' option 'exposure' not found").
Proof. vm_compute. reflexivity. Qed.

(** C9 at the camera with [streaming_guard] registered: the callback
    throws on the hardware reset; nothing escapes the task, the reply
    carries status error and the text of the exception, and the task
    returns. *)
Lemma control_task_no_escape_witness :
  _notification_server (camera_with_control streaming_guard)
  = Some camera_channel
  /\ control_callback_keeps_object (camera_with_control streaming_guard)
  /\ control_try (camera_with_control streaming_guard) hw_reset
       (reply_shell client, camera_world)
     = (Throw (std_exception "device is streaming"),
        (reply_echo_of client "hw-reset" hw_reset, camera_world))
  /\ (forall e,
        (control_task no_faults hw_reset client
           (camera_with_control streaming_guard, camera_world)).1
        <> Throw e)
  /\ (exists reply,
        control_reply (camera_with_control streaming_guard) hw_reset client
          (JNull, camera_world)
        = (Ok tt, (reply, camera_world))
        /\ field status_key reply = Some (JStr "error")
        /\ field explanation_key reply = Some (JStr "device is streaming"))
  /\ exists srv' w',
       control_task no_faults hw_reset client
         (camera_with_control streaming_guard, camera_world)
       = (Ok tt, (srv', w')).
Proof.
  assert (Hns : _notification_server (camera_with_control streaming_guard)
                = Some camera_channel)
    by (vm_compute; reflexivity).
  assert (Hcb : control_callback_keeps_object
                  (camera_with_control streaming_guard)).
  { intros callback id j reply h H Hobj. simpl in H.
    injection H as <-. unfold streaming_guard.
    destruct (String.eqb id "hw-reset"); exact Hobj. }
  assert (Hdef : callbacks_defined (camera_with_control streaming_guard)).
  { split; [| split].
    - intros callback ? ? ? H. vm_compute in H. discriminate H.
    - intros callback ? ? H. vm_compute in H. discriminate H.
    - intros callback id j H s. simpl in H. injection H as <-.
      unfold streaming_guard. destruct (String.eqb id "hw-reset");
        discriminate. }
  assert (Htry : control_try (camera_with_control streaming_guard) hw_reset
                   (reply_shell client, camera_world)
                 = (Throw (std_exception "device is streaming"),
                    (reply_echo_of client "hw-reset" hw_reset,
                     camera_world)))
    by (vm_compute; reflexivity).
  split; [exact Hns |]. split; [exact Hcb |]. split; [exact Htry |].
  destruct (control_task_no_escape no_faults
              (camera_with_control streaming_guard) camera_world
              hw_reset client camera_channel Hns Hcb)
    as (Hno & Hcatch & _ & Hret).
  split; [exact Hno |].
  split; [exact (Hcatch _ _ _ Htry) |].
  exact (Hret Hdef).
Defined.

(** Without a custom control callback, a message without an id is
    answered with status error and the text of the failed extraction. *)
Example missing_id_reply :
  exists reply,
    control_reply camera_ready no_id client (JNull, camera_world)
    = (Ok tt, (reply, camera_world))
    /\ field status_key reply = Some (JStr "error")
    /\ field explanation_key reply = Some (JStr "key 'id' not found").
Proof. eexists. split; [vm_compute; reflexivity |]. by split. Qed.

(** C9 as stated fails: with [reply_clobbered] registered, the callback
    leaves an array as the reply and declines; the handler throws
    invalid control, the [catch] block cannot write the status into an
    array, and the exception of that write leaves the task; no reply is
    sent. *)
Lemma control_task_exception_escapes :
  control_task no_faults hw_reset client
    (camera_with_control reply_clobbered, camera_world)
  = (Throw (json_exception (type_error "operator[]" (JArr []))),
     (camera_with_control reply_clobbered, camera_world))
  /\ (notifications_sent <$>
        _notification_server (camera_with_control reply_clobbered))
     = Some [].
Proof. split; vm_compute; reflexivity. Qed.

(** C10 at the camera: broadcast, disconnect, broadcast again. *)
Lemma broadcast_after_disconnect_witness :
  _broadcaster camera_on_air = Some {| broadcast_info := camera_info |}
  /\ broadcast no_faults camera_info camera_on_air
     = (Throw (std_exception "device server was already broadcast"),
        camera_on_air)
  /\ broadcast_disconnect no_faults 5 camera_on_air
     = (Ok tt, with_broadcaster None camera_on_air)
  /\ _broadcaster (with_broadcaster None camera_on_air) = None
  /\ broadcast no_faults camera_info (with_broadcaster None camera_on_air)
     = (Ok tt,
        with_broadcaster (Some {| broadcast_info := camera_info |})
          (with_broadcaster None camera_on_air)).
Proof.
  assert (Hns : _notification_server camera_on_air = Some camera_channel)
    by (vm_compute; reflexivity).
  split; [reflexivity |].
  exact (broadcast_after_disconnect no_faults no_faults 5 camera_info
           camera_on_air {| broadcast_info := camera_info |} camera_channel
           eq_refl Hns eq_refl eq_refl eq_refl).
Defined.

(** X4 at the camera: the metadata writer cannot be started; the
    channel, the stream map and the control reader are gone. *)
Lemma init_failure_state_witness :
  is_valid camera = false
  /\ camera_init writer_run_fails camera
     = (Throw (std_exception "writer cannot run"), camera_failed)
  /\ _notification_server camera_failed = None
  /\ _stream_name_to_server camera_failed = ∅
  /\ _control_reader camera_failed = None
  /\ is_valid camera_failed = false
  /\ same_frame camera camera_failed.
Proof.
  assert (H : camera_init writer_run_fails camera
              = (Throw (std_exception "writer cannot run"), camera_failed))
    by (vm_compute; reflexivity).
  split; [reflexivity |]. split; [exact H |].
  exact (init_failure_state writer_run_fails camera_heap [color] [1] []
           camera (std_exception "writer cannot run") camera_failed
           eq_refl H).
Defined.

(** X5 at the camera: the [init] after the failed one succeeds. *)
Lemma init_retry_after_failure_witness :
  camera_init writer_run_fails camera
  = (Throw (std_exception "writer cannot run"), camera_failed)
  /\ camera_init no_faults camera_failed
     = (Ok tt, initialised camera_failed camera_heap [color] [1] []).
Proof.
  assert (H : camera_init writer_run_fails camera
              = (Throw (std_exception "writer cannot run"), camera_failed))
    by (vm_compute; reflexivity).
  split; [exact H |].
  exact (init_retry_after_failure writer_run_fails no_faults
           camera_heap [color] [1] [] camera_heap [color] [1] []
           camera (std_exception "writer cannot run") camera_failed
           eq_refl H (fun _ => eq_refl)).
Defined.

(** X6 at the camera. *)
Lemma init_success_state_witness :
  init no_faults camera_heap [color] [1] [] camera = (Ok tt, camera_ready)
  /\ is_valid camera = false
  /\ is_valid camera_ready = true
  /\ camera_ready = initialised camera camera_heap [color] [1] [].
Proof.
  assert (H : init no_faults camera_heap [color] [1] [] camera
              = (Ok tt, camera_ready))
    by (vm_compute; reflexivity).
  split; [exact H |].
  exact (init_success_state no_faults camera_heap [color] [1] []
           camera camera_ready H).
Defined.

(** X7 at the camera: the stream color is found under its name. *)
Lemma init_registers_streams_witness :
  init no_faults camera_heap [color] [1] [] camera = (Ok tt, camera_ready)
  /\ _stream_name_to_server camera_ready !! "color" = Some color.
Proof.
  assert (H : init no_faults camera_heap [color] [1] [] camera
              = (Ok tt, camera_ready))
    by (vm_compute; reflexivity).
  split; [exact H |].
  exact (proj2 (proj2 (init_registers_streams no_faults camera_heap [color]
                         [1] [] camera camera_ready H))
           (NoDup_singleton "color") color (list_elem_of_here color [])).
Defined.

(** X8 at the camera: color has metadata enabled, so the writer runs and
    takes the message. *)
Lemma publish_metadata_after_init_witness :
  init no_faults camera_heap [color] [1] [] camera = (Ok tt, camera_ready)
  /\ _metadata_writer camera_ready
     = Some (started_writer "realsense/D435")
  /\ publish_metadata no_faults (JStr "frame 1") camera_ready
     = (Ok tt,
        with_metadata_writer
          (Some {| writer_topic := "realsense/D435/metadata";
                   writer_qos := Some metadata_qos;
                   written := [JStr "frame 1"] |}) camera_ready).
Proof.
  assert (H : init no_faults camera_heap [color] [1] [] camera
              = (Ok tt, camera_ready))
    by (vm_compute; reflexivity).
  split; [exact H |].
  exact (proj1 (proj2 (publish_metadata_after_init no_faults no_faults
                         camera_heap [color] [1] [] (JStr "frame 1")
                         camera camera_ready H))
           eq_refl eq_refl eq_refl).
Defined.

(** X9 at the camera. *)
Lemma init_twice_after_success_witness :
  init no_faults camera_heap [color] [1] [] camera = (Ok tt, camera_ready)
  /\ init writer_run_fails camera_heap [color] [1] [] camera_ready
     = (Throw (std_exception
                 "device server 'realsense/D435' is already initialized"),
        camera_ready).
Proof.
  assert (H : init no_faults camera_heap [color] [1] [] camera
              = (Ok tt, camera_ready))
    by (vm_compute; reflexivity).
  split; [exact H |].
  exact (init_twice_after_success no_faults writer_run_fails
           camera_heap [color] [1] [] camera_heap [color] [1] []
           camera camera_ready H).
Defined.

(** X13 at the camera: the exposure of color is set to 150 and read
    back; the device option a still has its value. *)
Lemma set_then_query_witness :
  let w' := {| heap := <[0 := {| get_name := "exposure";
                                 get_value := 150%Z;
                                 properties := JNull |}]> camera_heap;
               hw := [] |} in
  handle_set_option camera_ready set_exposure
    (reply_shell client, camera_world)
  = (Ok tt,
     (JObj [("sample", sample_json client); ("value", JFloat 150%Z)], w'))
  /\ exists opt,
       find_option camera_ready (heap camera_world) "exposure" "color"
       = Some opt
       /\ query_option_j camera_ready "color" (JStr "exposure") w'
          = (Ok 150%Z, w')
       /\ forall other_name other_stream other,
            find_option camera_ready (heap camera_world)
              other_name other_stream = Some other ->
            other <> opt ->
            query_option_j camera_ready other_stream (JStr other_name) w'
            = (Ok (get_value (heap camera_world !!! other)), w').
Proof.
  intros w'.
  assert (H : handle_set_option camera_ready set_exposure
                (reply_shell client, camera_world)
              = (Ok tt,
                 (JObj [("sample", sample_json client);
                        ("value", JFloat 150%Z)], w')))
    by (vm_compute; reflexivity).
  split; [exact H |].
  exact (set_then_query camera_ready set_exposure (reply_shell client)
           (JObj [("sample", sample_json client); ("value", JFloat 150%Z)])
           camera_world w' "exposure" "color" (JInt 150) 150%Z
           eq_refl eq_refl eq_refl eq_refl H eq_refl).
Defined.

(** X14 at the camera: the exposure of color is answered from the
    cache. *)
Lemma query_option_single_witness :
  find_option camera_ready (heap camera_world) "exposure" "color" = Some 0
  /\ handle_query_option camera_ready query_exposure
       (reply_shell client, camera_world)
     = (Ok tt,
        (JObj [("sample", sample_json client); ("value", JFloat 100%Z)],
         camera_world)).
Proof.
  assert (H : find_option camera_ready (heap camera_world)
                "exposure" "color" = Some 0)
    by (vm_compute; reflexivity).
  split; [exact H |].
  exact (query_option_single camera_ready query_exposure
           [("sample", sample_json client)] camera_world
           "exposure" "color" 0 eq_refl eq_refl H).
Defined.


(** X16 at the camera: the value is a string. *)
Lemma set_option_bad_value_witness :
  find_option camera_ready (heap camera_world) "exposure" "color" = Some 0
  /\ handle_set_option (on_set_option device_applies camera_ready)
       set_exposure_high (reply_shell client, camera_world)
     = (Throw (json_exception (type_error "get" (JStr "high"))),
        (reply_shell client, camera_world)).
Proof.
  assert (H : find_option (on_set_option device_applies camera_ready)
                (heap camera_world) "exposure" "color" = Some 0)
    by (vm_compute; reflexivity).
  split; [exact H |].
  exact (set_option_bad_value (on_set_option device_applies camera_ready)
           set_exposure_high (reply_shell client) camera_world
           "exposure" "color" 0
           (json_exception (type_error "get" (JStr "high")))
           eq_refl eq_refl H
           (or_intror (ex_intro _ (JStr "high") (conj eq_refl eq_refl)))).
Defined.

(** X17 at the camera: the reply to the set-option of the exposure. *)
Lemma reply_echoes_request_witness :
  json_at id_key set_exposure = Ok (JStr "set-option")
  /\ field sample_key (reply_of camera_ready set_exposure client camera_world)
     = Some (sample_json client)
  /\ field id_key (reply_of camera_ready set_exposure client camera_world)
     = Some (JStr "set-option")
  /\ field control_key
       (reply_of camera_ready set_exposure client camera_world)
     = Some set_exposure
  /\ field status_key (reply_of camera_ready set_exposure client camera_world)
     = None
  /\ field explanation_key
       (reply_of camera_ready set_exposure client camera_world)
     = None.
Proof.
  assert (Hok : (control_try camera_ready set_exposure
                   (reply_shell client, camera_world)).1 = Ok tt)
    by (vm_compute; reflexivity).
  split; [reflexivity |].
  destruct (reply_echoes_request camera_ready set_exposure client camera_world
              "set-option" eq_refl (or_introl eq_refl))
    as (Hsample & Hid & Hcontrol & Hstatus).
  split; [exact Hsample |]. split; [exact Hid |].
  split; [exact Hcontrol |]. exact (Hstatus Hok).
Defined.


(** X19 at the camera: the task of the set-option appends its reply to
    the notifications sent and changes nothing else of the server. *)
Lemma control_task_server_frame_witness :
  _notification_server camera_ready = Some camera_channel
  /\ (control_task no_faults set_exposure client
        (camera_ready, camera_world)).2.1
     = with_notification_server
         (Some (sent (reply_of camera_ready set_exposure client camera_world)
                  camera_channel)) camera_ready.
Proof.
  assert (Hns : _notification_server camera_ready = Some camera_channel)
    by (vm_compute; reflexivity).
  split; [exact Hns |].
  exact (control_task_server_frame no_faults camera_ready camera_world
           set_exposure client camera_channel Hns).
Defined.

(** X20 at the camera: two messages with a disposed sample between
    them. *)
Lemma on_control_message_received_in_order_witness :
  let messages := [delivered set_exposure 1; disposed 2;
                   delivered query_exposure 3] in
  _control_reader (camera_hearing messages) = Some (camera_reader messages)
  /\ on_control_message_received (camera_hearing messages, [])
     = (Ok tt,
        (camera_hearing [],
         [ (set_exposure, sample (delivered set_exposure 1));
           (query_exposure, sample (delivered query_exposure 3)) ])).
Proof.
  intros messages.
  assert (Hall : Forall (fun data => is_valid_msg data = true ->
                                     exists j, json_data data = Ok j)
                   (pending (camera_reader messages))).
  { repeat apply Forall_cons_2; [| | | apply Forall_nil_2];
      intros _; eexists; reflexivity. }
  split; [reflexivity |].
  exact (on_control_message_received_in_order (camera_hearing messages)
           (camera_reader messages) [] eq_refl Hall).
Defined.

(** X21 at the camera: the second message does not parse; the first has
    its task, the third is still in the reader. *)
Lemma on_control_message_received_parse_failure_witness :
  let messages := [delivered set_exposure 1; garbled 2;
                   delivered query_exposure 3] in
  _control_reader (camera_hearing messages) = Some (camera_reader messages)
  /\ json_data (garbled 2) = Throw (std_exception "parse error")
  /\ on_control_message_received (camera_hearing messages, [])
     = (Throw (std_exception "parse error"),
        (camera_hearing [delivered query_exposure 3],
         [ (set_exposure, sample (delivered set_exposure 1)) ])).
Proof.
  intros messages.
  assert (Hall : Forall (fun data => is_valid_msg data = true ->
                                     exists j, json_data data = Ok j)
                   [delivered set_exposure 1]).
  { apply Forall_cons_2; [| apply Forall_nil_2].
    intros _; eexists; reflexivity. }
  split; [reflexivity |]. split; [reflexivity |].
  exact (on_control_message_received_parse_failure (camera_hearing messages)
           (camera_reader messages) [] [delivered set_exposure 1]
           (garbled 2) [delivered query_exposure 3]
           (std_exception "parse error") eq_refl eq_refl Hall
           eq_refl eq_refl).
Defined.

(** X22 at the camera: one stream is announced, and it is color. *)
Lemma init_announces_streams_witness :
  init no_faults camera_heap [color] [1] [] camera = (Ok tt, camera_ready)
  /\ exists ns header rest,
       _notification_server camera_ready = Some ns
       /\ discovery_notifications ns = header :: rest
       /\ has_id "device-header" header = true
       /\ field "n-streams" header
          = Some (JInt (Z.of_nat (length (stream_headers rest))))
       /\ map (field "name") (stream_headers rest)
          = map (fun stream => Some (JStr (name stream))) [color]
       /\ length rest = 1 + 2 * length [color]
       /\ notifications_sent ns = [].
Proof.
  assert (H : init no_faults camera_heap [color] [1] [] camera
              = (Ok tt, camera_ready))
    by (vm_compute; reflexivity).
  split; [exact H |].
  exact (init_announces_streams no_faults camera_heap [color] [1] []
           camera camera_ready H).
Defined.

(** X23 at the camera: a notification after [init]. *)
Lemma publish_notification_after_init_witness :
  init no_faults camera_heap [color] [1] [] camera = (Ok tt, camera_ready)
  /\ publish_notification no_faults (JStr "hello") camera_ready
     = (Ok tt,
        with_notification_server
          (Some (sent (JStr "hello")
                   (started_channel "realsense/D435" camera_heap [color]
                      [1] []))) camera_ready).
Proof.
  assert (H : init no_faults camera_heap [color] [1] [] camera
              = (Ok tt, camera_ready))
    by (vm_compute; reflexivity).
  split; [exact H |].
  exact (publish_notification_after_init no_faults no_faults camera_heap
           [color] [1] [] (JStr "hello") camera camera_ready H).
Defined.

(** X2 at the camera: the stream color is opened on
    rt/realsense/D435_color, and on no other topic. *)
Lemma stream_topic_name_witness :
  stream_topic "realsense/D435" "color" = "rt/realsense/D435_color"
  /\ is_valid camera = false
  /\ (init other_topics_busy camera_heap [color] [1] [] camera).1 = Ok tt
  /\ (init color_topic_busy camera_heap [color] [1] [] camera).1
     = Throw (std_exception "topic in use").
Proof.
  assert (Hother : forall x, (forall n t, x <> at_stream_open n t) ->
                             other_topics_busy x = None).
  { intros x Hx. destruct x; try reflexivity. by destruct (Hx stream topic). }
  assert (Hcolor : forall x, (forall n t, x <> at_stream_open n t) ->
                             color_topic_busy x = None).
  { intros x Hx. destruct x; try reflexivity. by destruct (Hx stream topic). }
  split; [reflexivity |]. split; [reflexivity |]. split.
  - apply (proj1 (stream_topic_name other_topics_busy camera_heap [color]
                    [1] [] camera eq_refl Hother)).
    apply Forall_cons_2; [reflexivity | apply Forall_nil_2].
  - apply (proj2 (stream_topic_name color_topic_busy camera_heap [color]
                    [1] [] camera eq_refl Hcolor)
             [] color [] (std_exception "topic in use") eq_refl).
    + apply Forall_nil_2.
    + reflexivity.
Defined.

End CameraProperties.
